(** * College basketball prediction model: the logistic predictor and the
      heuristic adjustors

    A shallow embedding of [predictor.py], [adjustments.py],
    [experience.py] and [upset_factors.py].

    Modelling choices, fixed once for the whole development:

    - a Python [float] is a real number ([R]); rounding, overflow, infinities
      and NaN are outside that reading, so an equality proved there is the
      equality of the exact values the floating-point code approximates.
      Where rounding decides a statement, the logistic transform is also
      given in binary64 ([_sigmoid_binary64], on the kernel's floats), with
      [math.exp] as a parameter;
    - a Python [str] is a [string] whose characters are read as code points
      below 256;
    - a Python [dict] with string keys is a [gmap string _];
    - a raised exception is [None] in the pure part and a [Raise] outcome in
      the part that mutates dictionaries in place. *)

From Stdlib Require Import Reals Lra Lia ZArith Ascii String Floats.
From stdpp Require Import base option list gmap strings fin_maps.

(** ** Python values and builtins *)

(** A [float(s)] that accepts no string: the closed examples below hold no
    numeric string, so any parser gives the same results on them. *)
Definition float_rejects_str : string -> option R := λ _, None.

(** [math.exp] is the C library's. These are the values CPython returns at
    the four arguments the closed examples pass to it, each the binary64
    number nearest to the real exponential: exp(-40.0), exp(-750.0) (which
    underflows to 0.0), exp(-0.5) and exp(0.0) = exp(-0.0) = 1.0. No other
    argument is used; there the table holds NaN. *)
Definition libm_exp_samples (x : float) : float :=
  if (x =? -40)%float then 0x1.39792499b1a24p-58%float
  else if (x =? -750)%float then 0%float
  else if (x =? -0.5)%float then 0x1.368b2fc6f960ap-1%float
  else if (x =? 0)%float then 1%float
  else nan.

(** The values a stat mapping or a JSON table can hold. *)
Inductive pyval : Type :=
  | PyFloat (x : R)
  | PyInt (n : Z)
  | PyStr (s : string)
  | PyNone.

#[global] Instance R_eq_dec : EqDecision R := Req_dec_T.
#[global] Instance R_inhabited : Inhabited R := populate 0%R.
#[global] Instance Rge_decision (x y : R) : Decision (x >= y)%R := Rge_dec x y.
#[global] Instance Rgt_decision (x y : R) : Decision (x > y)%R := Rgt_dec x y.

Module PyStr.

(** [str.isspace] on one character: the code points below 256 that
    [str.strip()] removes. *)
Definition isspace (c : ascii) : bool :=
  let n := nat_of_ascii c in
  ((9 <=? n) && (n <=? 13)) || ((28 <=? n) && (n <=? 32))
  || (n =? 133) || (n =? 160).

(** [str.lower] on one character: A..Z and the Latin-1 capitals. *)
Definition lower_char (c : ascii) : ascii :=
  let n := nat_of_ascii c in
  if ((65 <=? n) && (n <=? 90))
     || ((192 <=? n) && (n <=? 222) && negb (n =? 215))
  then ascii_of_nat (n + 32) else c.

Fixpoint lower (s : string) : string :=
  match s with
  | EmptyString => EmptyString
  | String c s' => String (lower_char c) (lower s')
  end.

Fixpoint lstrip (s : string) : string :=
  match s with
  | EmptyString => EmptyString
  | String c s' => if isspace c then lstrip s' else s
  end.

(** Drops the trailing white space: a character is kept when it is not
    white space or when something is kept after it. *)
Fixpoint rstrip (s : string) : string :=
  match s with
  | EmptyString => EmptyString
  | String c s' =>
      match rstrip s' with
      | EmptyString => if isspace c then EmptyString else String c EmptyString
      | r => String c r
      end
  end.

Definition strip (s : string) : string := rstrip (lstrip s).

(** [s.endswith('%')] *)
Fixpoint endswith_percent (s : string) : bool :=
  match s with
  | EmptyString => false
  | String c EmptyString => Ascii.eqb c "%"
  | String _ s' => endswith_percent s'
  end.

(** [s[:-1]] *)
Fixpoint drop_last (s : string) : string :=
  match s with
  | EmptyString => EmptyString
  | String _ EmptyString => EmptyString
  | String c s' => String c (drop_last s')
  end.

End PyStr.

Local Open Scope R_scope.

(** Truth value of an object, as [if v] and [and] test it. *)
Definition py_truthy (v : pyval) : bool :=
  match v with
  | PyFloat x => bool_decide (x ≠ 0)
  | PyInt n => bool_decide (n ≠ 0%Z)
  | PyStr s => bool_decide (s ≠ EmptyString)
  | PyNone => false
  end.

(** ** Dictionaries updated in place *)

(** The adjustors receive references to dictionaries and write through
    them, so the dictionaries live in a store indexed by object identity; two
    arguments may be the same object. Every reference a caller passes is
    allocated; an unallocated one reads as the empty dictionary. *)

Inductive exn : Type :=
  | KeyError
  | TypeError
  | ZeroDivisionError
  | Unmodelled.  (* a dictionary key that is not a string: not covered *)

Inductive outcome (A : Type) : Type :=
  | Ok (a : A)
  | Raise (e : exn).
Arguments Ok {A} a.
Arguments Raise {A} e.

(** A computation reads and writes the store and returns or raises; the
    writes made before an exception stay. *)
Definition M (A : Type) : Type :=
  gmap nat (gmap string pyval) → outcome A * gmap nat (gmap string pyval).

#[global] Instance M_ret : MRet M := λ A a h, (Ok a, h).
#[global] Instance M_bind : MBind M := λ A B k m h,
  match m h with
  | (Ok a, h') => k a h'
  | (Raise e, h') => (Raise e, h')
  end.

Definition raise {A : Type} (e : exn) : M A := λ h, (Raise e, h).

Definition lift {A : Type} (o : outcome A) : M A := λ h, (o, h).

(** [d[k]] *)
Definition getitem (d : nat) (k : string) : M pyval := λ h,
  match (h !!! d) !! k with
  | Some v => (Ok v, h)
  | None => (Raise KeyError, h)
  end.

(** [d.get(k, dflt)] *)
Definition get (d : nat) (k : string) (dflt : pyval) : M pyval := λ h,
  (Ok (default dflt ((h !!! d) !! k)), h).

(** [d[k] = v] *)
Definition setitem (d : nat) (k : string) (v : pyval) : M unit := λ h,
  (Ok tt, <[d := <[k := v]> (h !!! d)]> h).

(** A number as arithmetic and comparisons read it; anything else makes the
    operator raise [TypeError]. *)
Definition py_num (v : pyval) : outcome R :=
  match v with
  | PyFloat x => Ok x
  | PyInt n => Ok (IZR n)
  | _ => Raise TypeError
  end.

(** [v * c] for a float [c]. *)
Definition py_mul_float (v : pyval) (c : R) : outcome pyval :=
  match v with
  | PyFloat x => Ok (PyFloat (x * c))
  | PyInt n => Ok (PyFloat (IZR n * c))
  | _ => Raise TypeError
  end.

(** [v > w] *)
Definition py_gt (v w : pyval) : outcome bool :=
  match v, w with
  | PyStr s, PyStr t => Ok (String.ltb t s)
  | PyStr _, _ | _, PyStr _ => Raise TypeError
  | _, _ =>
      match py_num v, py_num w with
      | Ok x, Ok y => Ok (bool_decide (x > y))
      | _, _ => Raise TypeError
      end
  end.

(** [max(v, c)] for a float [c]: the first argument unless the second is
    greater. *)
Definition py_max_float (v : pyval) (c : R) : outcome pyval :=
  match py_num v with
  | Ok x => Ok (if decide (c > x) then PyFloat c else v)
  | Raise e => Raise e
  end.

(** [1 - v] *)
Definition py_one_minus (v : pyval) : outcome pyval :=
  match v with
  | PyFloat x => Ok (PyFloat (1 - x))
  | PyInt n => Ok (PyInt (1 - n))
  | _ => Raise TypeError
  end.

(** A team name used as a key of the probability mapping. *)
Definition as_key (v : pyval) : outcome string :=
  match v with
  | PyStr s => Ok s
  | _ => Raise Unmodelled
  end.

(** *** adjustments.py *)

Definition HOME_COURT_ADV : R := 14 / 1000.

(** [d[k] *= c] *)
Definition imul (d : nat) (k : string) (c : R) : M unit :=
  v ← getitem d k;
  w ← lift (py_mul_float v c);
  setitem d k w.

Definition apply_home_court (teamA_stats teamB_stats : nat) (location : string) : M unit :=
  let loc := PyStr.lower location in
  if decide (loc = "home"%string) then
    imul teamA_stats "AdjO" (1 + HOME_COURT_ADV);;
    imul teamA_stats "AdjD" (1 - HOME_COURT_ADV);;
    imul teamB_stats "AdjO" (1 - HOME_COURT_ADV);;
    imul teamB_stats "AdjD" (1 + HOME_COURT_ADV)
  else if decide (loc = "away"%string) then
    imul teamA_stats "AdjO" (1 - HOME_COURT_ADV);;
    imul teamA_stats "AdjD" (1 + HOME_COURT_ADV);;
    imul teamB_stats "AdjO" (1 + HOME_COURT_ADV);;
    imul teamB_stats "AdjD" (1 - HOME_COURT_ADV)
  else mret tt.

(** *** experience.py *)

Definition EXPERIENCE_THRESHOLD : R := 1.
Definition EXPERIENCE_BONUS : R := 2 / 100.

Definition apply_experience_bonus (teamA teamB : nat) (win_prob_A win_prob_B : R)
  : M (R * R) :=
  expA ← get teamA "Experience" (PyInt 0);
  expB ← get teamB "Experience" (PyInt 0);
  a ← lift (py_num expA);
  b ← lift (py_num expB);
  if decide (Rabs (a - b) >= EXPERIENCE_THRESHOLD) then
    let '(win_prob_A, win_prob_B) :=
      if decide (a > b) then (win_prob_A + EXPERIENCE_BONUS, win_prob_B)
      else (win_prob_A, win_prob_B + EXPERIENCE_BONUS) in
    let total := win_prob_A + win_prob_B in
    if decide (total = 0) then raise ZeroDivisionError
    else mret (win_prob_A / total, win_prob_B / total)
  else mret (win_prob_A, win_prob_B).

(** *** upset_factors.py *)

Definition HISTORICAL_UPSETS : list ((Z * Z) * R) :=
  [ ((12, 5)%Z, 35 / 100);
    ((11, 6)%Z, 40 / 100);
    ((10, 7)%Z, 39 / 100) ].

(** [v == n] for an integer key [n]. *)
Definition py_eq_int (v : pyval) (n : Z) : bool :=
  match v with
  | PyFloat x => bool_decide (x = IZR n)
  | PyInt m => bool_decide (m = n)
  | _ => false
  end.

(** [HISTORICAL_UPSETS.get(matchup)]: [None] when [matchup] is not a key. *)
Definition upset_rate_of (matchup : pyval * pyval) : option R :=
  snd <$> List.find (λ '((u, f), _), py_eq_int matchup.1 u && py_eq_int matchup.2 f)
            HISTORICAL_UPSETS.

Definition tournament_rounds : list string :=
  ["round1"; "round2"; "sweet16"; "elite8"; "final4"; "championship"]%string.

Definition adjust_for_upset_trends (teamA teamB win_probs : nat) (round_name : string)
  : M nat :=
  seedA ← get teamA "Seed" (PyInt 0);
  seedB ← get teamB "Seed" (PyInt 0);
  if py_truthy seedA && py_truthy seedB
     && bool_decide (PyStr.lower round_name ∈ tournament_rounds) then
    a_above ← lift (py_gt seedA seedB);
    '(matchup, underdog_name, favorite_name) ←
      (if a_above : bool then
         nA ← getitem teamA "name"; nB ← getitem teamB "name";
         mret ((seedA, seedB), nA, nB)
       else
         nB ← getitem teamB "name"; nA ← getitem teamA "name";
         mret ((seedB, seedA), nB, nA));
    match upset_rate_of matchup with
    | Some upset_rate =>
        underdog ← lift (as_key underdog_name);
        old ← get win_probs underdog (PyInt 0);
        new ← lift (py_max_float old upset_rate);
        setitem win_probs underdog new;;
        cur ← getitem win_probs underdog;
        rest ← lift (py_one_minus cur);
        favorite ← lift (as_key favorite_name);
        setitem win_probs favorite rest;;
        mret win_probs
    | None => mret win_probs
    end
  else mret win_probs.

(** Two teams and the caller's probability mapping, as three objects. *)
Definition example_heap : gmap nat (gmap string pyval) :=
  {[ 0%nat := {[ "name"%string := PyStr "Drake"; "Seed"%string := PyInt 12;
                 "AdjO"%string := PyFloat 100; "AdjD"%string := PyFloat 90 ]};
     1%nat := {[ "name"%string := PyStr "Miami"; "Seed"%string := PyInt 5;
                 "AdjO"%string := PyFloat 110; "AdjD"%string := PyFloat 95 ]};
     2%nat := {[ "Drake"%string := PyFloat (2 / 10); "Miami"%string := PyFloat (8 / 10) ]} ]}.

(** A computation that only reads, and one that writes to no object but
    [d]. *)
Definition read_only {A : Type} (m : M A) : Prop := ∀ h, (m h).2 = h.

Definition writes_only {A : Type} (d : nat) (m : M A) : Prop :=
  ∀ h r, r ≠ d → (m h).2 !! r = h !! r.

(** A computation that writes to no object outside [ds] and to no key
    outside [ks]. *)
Definition touches_only {A : Type} (ds : list nat) (ks : list string) (m : M A) : Prop :=
  ∀ h,
    (∀ r, r ∉ ds → (m h).2 !! r = h !! r)
    ∧ (∀ r k, k ∉ ks →
         ((m h).2 !!! r : gmap string pyval) !! k = (h !!! r : gmap string pyval) !! k).

(** Three teams by experience: three years, none recorded, and a missing
    value. *)
Definition experience_heap : gmap nat (gmap string pyval) :=
  {[ 0%nat := {[ "Experience"%string := PyFloat 3 ]};
     1%nat := ∅;
     2%nat := {[ "Experience"%string := PyNone ]} ]}.

(** A rated team and a team without ratings. *)
Definition lonely_heap : gmap nat (gmap string pyval) :=
  {[ 0%nat := {[ "AdjO"%string := PyFloat 100; "AdjD"%string := PyFloat 90 ]};
     1%nat := ∅ ]}.

(** Membership and non-membership in a list of literal names. *)
Ltac in_list := repeat first [apply list_elem_of_here | apply list_elem_of_further].

Ltac not_in_list :=
  rewrite ?elem_of_cons, elem_of_nil;
  let H := fresh in intros H; repeat destruct H as [H|H]; first [discriminate H | exact H].

(** ** The predictor *)

Section Predictor.

(** [float(s)] on a string is Python's numeric-literal parser, a builtin
    outside the repository: [None] when it raises [ValueError]. *)
Variable float_of_str : string -> option R.

(** [float(v)]; [None] when the conversion raises. *)
Definition py_float (v : pyval) : option R :=
  match v with
  | PyFloat x => Some x
  | PyInt n => Some (IZR n)
  | PyStr s => float_of_str s
  | PyNone => None
  end.

(** *** The artifact store *)

(** [logistic_model_meta.json]: each key may be absent. *)
Record meta_doc : Type := MetaDoc {
  meta_feature_names : option (list string);
  meta_intercept : option pyval
}.

(** The four JSON documents of an artifacts directory; [None] is a file
    that is missing or does not parse, on which [_load_json] raises. *)
Record artifacts : Type := Artifacts {
  logistic_model_meta : option meta_doc;
  logistic_signed_coefficients : option (gmap string pyval);
  scaler_mean : option (gmap string pyval);
  scaler_scale : option (gmap string pyval)
}.

Definition load_logistic_artifacts (artifacts_dir : artifacts)
  : option (list string * list R * R * list R * list R) :=
  meta ← logistic_model_meta artifacts_dir;
  coefs ← logistic_signed_coefficients artifacts_dir;
  means ← scaler_mean artifacts_dir;
  scales ← scaler_scale artifacts_dir;
  feature_names ← meta_feature_names meta;
  intercept ← py_float (default (PyFloat 0) (meta_intercept meta));
  coef_vec ← mapM (λ f, py_float (default (PyFloat 0) (coefs !! f))) feature_names;
  mean_vec ← mapM (λ f, py_float (default (PyFloat 0) (means !! f))) feature_names;
  scale_vec ← mapM (λ f, py_float (default (PyFloat 1) (scales !! f))) feature_names;
  Some (feature_names, coef_vec, intercept, mean_vec, scale_vec).

(** *** The feature builder *)

Definition _safe_get (d : gmap string pyval) (k : string) (dflt : R) : R :=
  let v := default (PyFloat dflt) (d !! k) in
  match py_float v with
  | Some x => x
  | None => dflt
  end.

Definition _home_advantage_value (location : option string) : R :=
  let loc := PyStr.lower (PyStr.strip (default EmptyString location)) in
  if decide (loc = "home"%string) then 1
  else if decide (loc = "away"%string) then -1
  else 0.

Definition build_features_from_live (teamA teamB : gmap string pyval)
    (location : option string) (feature_names : list string)
  : list R * gmap string R :=
  let A := teamA in
  let B := teamB in
  let f : gmap string R := ∅ in
  let f := <["home_advantage" := _home_advantage_value location]> f in
  let f := <["OffRating_diff" := _safe_get A "AdjO" 0 - _safe_get B "AdjO" 0]> f in
  let f := <["DefRating_diff" := _safe_get A "AdjD" 0 - _safe_get B "AdjD" 0]> f in
  let f := <["Off_eFG_diff" := _safe_get A "eFG_off" 0 - _safe_get B "eFG_off" 0]> f in
  let f := <["Off_3P%_diff" := _safe_get A "ThreeP_off" 0 - _safe_get B "ThreeP_off" 0]> f in
  let f := <["Off_2P%_diff" := _safe_get A "TwoP_off" 0 - _safe_get B "TwoP_off" 0]> f in
  let f := <["Off_FT%_diff" := _safe_get A "FT_off" 0 - _safe_get B "FT_off" 0]> f in
  let f := <["Off_3PA%_diff" := _safe_get A "ThreePA_off" 0 - _safe_get B "ThreePA_off" 0]> f in
  let f := <["Off_TOV%_diff" := _safe_get A "TOV_off" 0 - _safe_get B "TOV_off" 0]> f in
  let f := <["Off_FTR_diff" := _safe_get A "FTR_off" 0 - _safe_get B "FTR_off" 0]> f in
  let f := <["Off_A%_diff" := _safe_get A "AST_off" 0 - _safe_get B "AST_off" 0]> f in
  let f := <["Off_OR%_diff" := _safe_get A "OR_off" 0 - _safe_get B "OR_off" 0]> f in
  let f := <["Def_eFG_allowed_diff" := _safe_get A "eFG_def" 0 - _safe_get B "eFG_def" 0]> f in
  let f := <["Def_3P%_allowed_diff" := _safe_get A "ThreeP_def" 0 - _safe_get B "ThreeP_def" 0]> f in
  let f := <["Def_2P%_allowed_diff" := _safe_get A "TwoP_def" 0 - _safe_get B "TwoP_def" 0]> f in
  let f := <["Def_FT%_allowed_diff" := _safe_get A "FT_def" 0 - _safe_get B "FT_def" 0]> f in
  let f := <["Def_3PA%_allowed_diff" := _safe_get A "ThreePA_def" 0 - _safe_get B "ThreePA_def" 0]> f in
  let f := <["Def_TOV%_diff" := _safe_get A "TOV_def" 0 - _safe_get B "TOV_def" 0]> f in
  let f := <["Def_DR%_diff" := _safe_get A "DR_def" 0 - _safe_get B "DR_def" 0]> f in
  let f := <["Def_BLK%_diff" := _safe_get A "BLK_def" 0 - _safe_get B "BLK_def" 0]> f in
  let f := <["Def_STL%_diff" := _safe_get A "STL_def" 0 - _safe_get B "STL_def" 0]> f in
  let f := <["Poss_diff" := _safe_get A "Tempo" 0 - _safe_get B "Tempo" 0]> f in
  let f := <["home_x_offrat" := (f !!! "home_advantage") * (f !!! "OffRating_diff")]> f in
  let f := <["home_x_defrat" := (f !!! "home_advantage") * (f !!! "DefRating_diff")]> f in
  let x := (λ name, default 0 (f !! name)) <$> feature_names in
  (x, f).

(** *** The scorer *)

Definition _sigmoid (z : R) : R :=
  if decide (z >= 0) then
    let ez := exp (- z) in 1 / (1 + ez)
  else
    let ez := exp z in ez / (1 + ez).

(** [_sigmoid] as the program runs it: every operation is the binary64 one,
    rounded to nearest, and [math.exp] is the C library's function. *)
Variable math_exp : float → float.

Definition _sigmoid_binary64 (z : float) : float :=
  if (0 <=? z)%float then
    let ez := math_exp (- z)%float in (1 / (1 + ez))%float
  else
    let ez := math_exp z in (ez / (1 + ez))%float.

(** The standardisation loop of [predict_logistic_from_artifacts]:
    [zip] stops at the shortest of its three arguments. *)
Definition standardize (x_raw mean_vec scale_vec : list R) : list R :=
  (λ '(v, (m, s)), if decide (s = 0) then 0 else (v - m) / s)
    <$> zip x_raw (zip mean_vec scale_vec).

(** [sum(...)] adds from the left, starting at 0. *)
Definition py_sum (l : list R) : R := foldl Rplus 0 l.

Definition linear_model (coef_vec : list R) (intercept : R) (x_std : list R) : R :=
  intercept + py_sum ((λ '(c, v), c * v) <$> zip coef_vec x_std).

(** Standardise, score and squash: the body of
    [predict_logistic_from_artifacts] after the two calls. *)
Definition score (x_raw mean_vec scale_vec coef_vec : list R) (intercept : R) : R * R :=
  let x_std := standardize x_raw mean_vec scale_vec in
  let z := linear_model coef_vec intercept x_std in
  let pA := _sigmoid z in
  let pB := 1 - pA in
  (pA, pB).

Definition predict_logistic_from_artifacts (teamA teamB : gmap string pyval)
    (location : option string) (artifacts_dir : artifacts)
  : option (R * R * gmap string R) :=
  '(feature_names, coef_vec, intercept, mean_vec, scale_vec)
     ← load_logistic_artifacts artifacts_dir;
  let '(x_raw, used) := build_features_from_live teamA teamB location feature_names in
  let '(pA, pB) := score x_raw mean_vec scale_vec coef_vec intercept in
  Some (pA, pB, used).

(** The stat key behind each difference feature. *)
Definition diff_features : list (string * string) :=
  [ ("OffRating_diff", "AdjO"); ("DefRating_diff", "AdjD");
    ("Off_eFG_diff", "eFG_off"); ("Off_3P%_diff", "ThreeP_off");
    ("Off_2P%_diff", "TwoP_off"); ("Off_FT%_diff", "FT_off");
    ("Off_3PA%_diff", "ThreePA_off"); ("Off_TOV%_diff", "TOV_off");
    ("Off_FTR_diff", "FTR_off"); ("Off_A%_diff", "AST_off");
    ("Off_OR%_diff", "OR_off"); ("Def_eFG_allowed_diff", "eFG_def");
    ("Def_3P%_allowed_diff", "ThreeP_def"); ("Def_2P%_allowed_diff", "TwoP_def");
    ("Def_FT%_allowed_diff", "FT_def"); ("Def_3PA%_allowed_diff", "ThreePA_def");
    ("Def_TOV%_diff", "TOV_def"); ("Def_DR%_diff", "DR_def");
    ("Def_BLK%_diff", "BLK_def"); ("Def_STL%_diff", "STL_def");
    ("Poss_diff", "Tempo") ]%string.

(** The named feature set in closed form, one entry per assignment. *)
Definition named_features (teamA teamB : gmap string pyval) (location : option string)
  : list (string * R) :=
  let h := _home_advantage_value location in
  let d k := _safe_get teamA k 0 - _safe_get teamB k 0 in
  ("home_advantage"%string, h)
    :: ((λ '(feat, key), (feat, d key)) <$> diff_features)
    ++ [ ("home_x_offrat"%string, h * d "AdjO"%string);
         ("home_x_defrat"%string, h * d "AdjD"%string) ].

(** The artifacts and the two teams of the end-to-end example. *)
Definition example_artifacts : artifacts :=
  {| logistic_model_meta :=
       Some {| meta_feature_names := Some ["home_advantage"; "OffRating_diff"]%string;
               meta_intercept := Some (PyFloat 0) |};
     logistic_signed_coefficients :=
       Some {[ "home_advantage"%string := PyFloat 1; "OffRating_diff"%string := PyFloat 0 ]};
     scaler_mean :=
       Some {[ "home_advantage"%string := PyFloat 0; "OffRating_diff"%string := PyFloat 0 ]};
     scaler_scale :=
       Some {[ "home_advantage"%string := PyFloat 1; "OffRating_diff"%string := PyFloat 1 ]} |}.

Definition example_teamA : gmap string pyval := {[ "AdjO"%string := PyFloat 110 ]}.
Definition example_teamB : gmap string pyval := {[ "AdjO"%string := PyFloat 100 ]}.

(** The two interaction terms, and what exchanging the teams does to a
    derived feature when the home advantage changes sign: the interaction
    terms are products of two sign-changing factors and keep their value. *)
Definition interaction_features : list string := ["home_x_offrat"; "home_x_defrat"]%string.

Definition swap_sign (name : string) (v : R) : R :=
  if bool_decide (name ∈ interaction_features) then v else - v.

(** Artifacts on which the exchange of the teams is not a symmetry: a model
    of the offensive interaction term alone, a model that is its intercept,
    and a model with a non-zero mean. *)
Definition interaction_artifacts : artifacts :=
  {| logistic_model_meta :=
       Some {| meta_feature_names := Some ["home_x_offrat"]%string;
               meta_intercept := Some (PyFloat 0) |};
     logistic_signed_coefficients := Some {[ "home_x_offrat"%string := PyFloat 1 ]};
     scaler_mean := Some {[ "home_x_offrat"%string := PyFloat 0 ]};
     scaler_scale := Some {[ "home_x_offrat"%string := PyFloat 1 ]} |}.

Definition intercept_artifacts : artifacts :=
  {| logistic_model_meta :=
       Some {| meta_feature_names := Some []; meta_intercept := Some (PyFloat 1) |};
     logistic_signed_coefficients := Some ∅;
     scaler_mean := Some ∅;
     scaler_scale := Some ∅ |}.

Definition centred_artifacts : artifacts :=
  {| logistic_model_meta :=
       Some {| meta_feature_names := Some ["OffRating_diff"]%string;
               meta_intercept := Some (PyFloat 0) |};
     logistic_signed_coefficients := Some {[ "OffRating_diff"%string := PyFloat 1 ]};
     scaler_mean := Some {[ "OffRating_diff"%string := PyFloat 1 ]};
     scaler_scale := Some {[ "OffRating_diff"%string := PyFloat 1 ]} |}.

Definition unit_teamA : gmap string pyval := {[ "AdjO"%string := PyFloat 1 ]}.
Definition unit_teamB : gmap string pyval := {[ "AdjO"%string := PyFloat 0 ]}.

(** Artifacts on which it is one: no intercept, no centring, no
    interaction term. *)
Definition symmetric_artifacts : artifacts :=
  {| logistic_model_meta :=
       Some {| meta_feature_names := Some ["home_advantage"; "OffRating_diff"]%string;
               meta_intercept := None |};
     logistic_signed_coefficients :=
       Some {[ "home_advantage"%string := PyFloat 1; "OffRating_diff"%string := PyFloat 2 ]};
     scaler_mean := Some ∅;
     scaler_scale := Some {[ "OffRating_diff"%string := PyFloat 5 ]} |}.

(** Rational enclosures of [exp]: numerators over [bound_scale], squared
    [k] times and rounded down, respectively up, after each squaring. *)
Definition bound_scale : Z := 10 ^ 12.

Fixpoint square_down (k : nat) (a : Z) : Z :=
  match k with
  | O => a
  | S k' => square_down k' (a * a / bound_scale)
  end.

Fixpoint square_up (k : nat) (a : Z) : Z :=
  match k with
  | O => a
  | S k' => square_up k' ((a * a + bound_scale - 1) / bound_scale)
  end.

(** A team whose offensive rating did not parse upstream. *)
Definition unparsed_team : gmap string pyval := {[ "AdjO"%string := PyStr "n/a" ]}.

(** Artifacts whose tables miss names: no coefficient for "Poss_diff", no
    mean and no scale at all. *)
Definition sparse_artifacts : artifacts :=
  {| logistic_model_meta :=
       Some {| meta_feature_names := Some ["OffRating_diff"; "Poss_diff"]%string;
               meta_intercept := None |};
     logistic_signed_coefficients := Some {[ "OffRating_diff"%string := PyFloat 2 ]};
     scaler_mean := Some ∅;
     scaler_scale := Some ∅ |}.

(** The names of the derived feature set and the stat keys it is computed
    from. *)
Definition derived_names : list string :=
  "home_advantage"%string :: diff_features.*1 ++ interaction_features.

Definition stat_keys : list string := diff_features.*2.

(** What a team against itself does to a derived feature. *)
Definition self_value (name : string) (v : R) : R :=
  if decide (name = "home_advantage"%string) then v else 0.

(** *** data_loader.py: one row of the team summaries *)

(** A row is the mapping from column label to cell; a missing cell (NaN or
    None) is [PyNone], which is what [pd.notna] rejects. *)
Definition notna (v : pyval) : bool :=
  match v with
  | PyNone => false
  | _ => true
  end.

Definition _coerce_float (x : pyval) : pyval :=
  match py_float x with
  | Some v => PyFloat v
  | None => PyNone
  end.

Definition _percent_to_float (x : pyval) : pyval :=
  match x with
  | PyNone => PyNone
  | PyStr s =>
      let xs := PyStr.strip s in
      let xs := if PyStr.endswith_percent xs then PyStr.drop_last xs else xs in
      match float_of_str xs with
      | Some v => PyFloat (v / 100)
      | None => PyNone
      end
  | _ =>
      match py_float x with
      | Some v => PyFloat (if decide (v > 15 / 10) then v / 100 else v)
      | None => PyNone
      end
  end.

(** The closure [pick] of [_map_row], with the row made explicit. *)
Fixpoint pick (row : gmap string pyval) (cols : list string) (dflt : pyval) (pct : bool)
  : pyval :=
  match cols with
  | [] => dflt
  | c :: cols' =>
      match row !! c with
      | Some v =>
          if notna v then (if pct then _percent_to_float v else _coerce_float v)
          else pick row cols' dflt pct
      | None => pick row cols' dflt pct
      end
  end.

#[global] Instance pyval_inhabited : Inhabited pyval := populate PyNone.

Definition _map_row (row : gmap string pyval) : gmap string pyval :=
  let out : gmap string pyval := ∅ in
  let out := <["AdjO" := pick row ["AdjO"; "AdjOE"; "Adj. Off"] (PyFloat 0) false]> out in
  let out := <["AdjD" := pick row ["AdjD"; "AdjDE"; "Adj. Def"] (PyFloat 0) false]> out in
  let out := <["Tempo" := pick row ["AdjT"; "Tempo"; "Adj. Tempo"] (PyFloat 0) false]> out in
  let out := <["eFG_off" := pick row ["eFG_O"; "eFG%_O"; "eFG Off"] PyNone true]> out in
  let out := <["eFG_def" := pick row ["eFG_D"; "eFG%_D"; "eFG Def"] PyNone true]> out in
  let out := <["ThreeP_off" := pick row ["3P_O"; "3P%_O"; "3P Off"] PyNone true]> out in
  let out := <["ThreeP_def" := pick row ["3P_D"; "3P%_D"; "3P Def"] PyNone true]> out in
  let out := <["TwoP_off" := pick row ["2P_O"; "2P%_O"; "2P Off"] PyNone true]> out in
  let out := <["TwoP_def" := pick row ["2P_D"; "2P%_D"; "2P Def"] PyNone true]> out in
  let out := <["FT_off" := pick row ["FT%_O"; "FT_O"; "FT Off"] PyNone true]> out in
  let out := <["FT_def" := pick row ["FT%_D"; "FT_D"; "FT Def"] PyNone true]> out in
  let out := <["OR_off" := pick row ["ORB"; "OR%_O"; "OR Off"] PyNone true]> out in
  let out := <["DR_def" := pick row ["DRB"; "DR%_D"; "DR Def"] PyNone true]> out in
  let out := <["TOV_off" := pick row ["TOV_O"; "TOV%_O"; "TO%_O"] PyNone true]> out in
  let out := <["TOV_def" := pick row ["TOV_D"; "TOV%_D"; "TO%_D"] PyNone true]> out in
  let ftr_o := pick row ["FTR_O"; "FTR Off"] PyNone true in
  let ftr_d := pick row ["FTR_D"; "FTR Def"] PyNone true in
  let out :=
    if negb (notna (out !!! "FT_off")) && notna ftr_o
    then <["FT_off" := ftr_o]> out else out in
  let out :=
    if negb (notna (out !!! "FT_def")) && notna ftr_d
    then <["FT_def" := ftr_d]> out else out in
  (λ v, if notna v then v else PyFloat 0) <$> out.

(** The keys [_map_row] writes. *)
Definition row_keys : list string :=
  [ "AdjO"; "AdjD"; "Tempo"; "eFG_off"; "eFG_def"; "ThreeP_off"; "ThreeP_def";
    "TwoP_off"; "TwoP_def"; "FT_off"; "FT_def"; "OR_off"; "DR_def"; "TOV_off";
    "TOV_def" ]%string.

(** The dictionary literal of [_map_row] as a table: each key with its
    column aliases, its default and whether it is read as a percentage. *)
Definition row_columns : list (string * (list string * pyval * bool)) :=
  [ ("AdjO", (["AdjO"; "AdjOE"; "Adj. Off"], PyFloat 0, false));
    ("AdjD", (["AdjD"; "AdjDE"; "Adj. Def"], PyFloat 0, false));
    ("Tempo", (["AdjT"; "Tempo"; "Adj. Tempo"], PyFloat 0, false));
    ("eFG_off", (["eFG_O"; "eFG%_O"; "eFG Off"], PyNone, true));
    ("eFG_def", (["eFG_D"; "eFG%_D"; "eFG Def"], PyNone, true));
    ("ThreeP_off", (["3P_O"; "3P%_O"; "3P Off"], PyNone, true));
    ("ThreeP_def", (["3P_D"; "3P%_D"; "3P Def"], PyNone, true));
    ("TwoP_off", (["2P_O"; "2P%_O"; "2P Off"], PyNone, true));
    ("TwoP_def", (["2P_D"; "2P%_D"; "2P Def"], PyNone, true));
    ("FT_off", (["FT%_O"; "FT_O"; "FT Off"], PyNone, true));
    ("FT_def", (["FT%_D"; "FT_D"; "FT Def"], PyNone, true));
    ("OR_off", (["ORB"; "OR%_O"; "OR Off"], PyNone, true));
    ("DR_def", (["DRB"; "DR%_D"; "DR Def"], PyNone, true));
    ("TOV_off", (["TOV_O"; "TOV%_O"; "TO%_O"], PyNone, true));
    ("TOV_def", (["TOV_D"; "TOV%_D"; "TO%_D"], PyNone, true)) ]%string.

(** The free-throw-rate columns the two free-throw keys fall back to; no
    other key has a fallback. *)
Definition rate_columns (k : string) : list string :=
  if decide (k = "FT_off"%string) then ["FTR_O"; "FTR Off"]%string
  else if decide (k = "FT_def"%string) then ["FTR_D"; "FTR Def"]%string
  else [].

(** The features whose stat key [_map_row] never writes. *)
Definition unfed_features : list string :=
  [ "Off_3PA%_diff"; "Off_FTR_diff"; "Off_A%_diff"; "Def_3PA%_allowed_diff";
    "Def_BLK%_diff"; "Def_STL%_diff" ]%string.

(** A directory without any document. *)
Definition empty_artifacts : artifacts :=
  {| logistic_model_meta := None;
     logistic_signed_coefficients := None;
     scaler_mean := None;
     scaler_scale := None |}.

(** A row whose first offensive-rating alias is missing, with a free-throw
    rate but no free-throw percentage. *)
Definition example_row : gmap string pyval :=
  {[ "AdjO"%string := PyNone; "AdjOE"%string := PyFloat 110;
     "AdjD"%string := PyFloat 95; "FTR_O"%string := PyFloat 30 ]}.

(** A row whose offensive rating does not convert. *)
Definition masked_row : gmap string pyval :=
  {[ "AdjO"%string := PyStr "n/a"; "AdjOE"%string := PyFloat 110 ]}.

(** ** Properties of the feature builder *)

Lemma build_features_named teamA teamB location feature_names :
  (build_features_from_live teamA teamB location feature_names).2
  = list_to_map (named_features teamA teamB location).
Proof.
  unfold build_features_from_live, named_features. cbn [snd].
  generalize (_home_advantage_value location), (_safe_get teamA), (_safe_get teamB).
  intros h gA gB.
  apply map_eq. intros k.
  vm_compute. reflexivity.
Qed.

Lemma safe_get_absent (d : gmap string pyval) k dflt :
  d !! k = None → _safe_get d k dflt = dflt.
Proof. intros Hk. unfold _safe_get. rewrite Hk. reflexivity. Qed.

Lemma safe_get_unconvertible (d : gmap string pyval) k v dflt :
  d !! k = Some v → py_float v = None → _safe_get d k dflt = dflt.
Proof. intros Hk Hv. unfold _safe_get. rewrite Hk. cbn. rewrite Hv. reflexivity. Qed.

Lemma safe_get_delete_ne (d : gmap string pyval) k k' dflt :
  k ≠ k' → _safe_get (delete k d) k' dflt = _safe_get d k' dflt.
Proof. intros Hne. unfold _safe_get. rewrite lookup_delete_ne by done. reflexivity. Qed.

Lemma build_features_vector teamA teamB location feature_names :
  (build_features_from_live teamA teamB location feature_names).1
  = (λ name,
       default 0
         ((build_features_from_live teamA teamB location feature_names).2 !! name))
      <$> feature_names.
Proof. reflexivity. Qed.

(** The builder reads a team only through [_safe_get]. *)
Lemma named_features_ext (A A' B B' : gmap string pyval) location :
  (∀ k, _safe_get A k 0 = _safe_get A' k 0) →
  (∀ k, _safe_get B k 0 = _safe_get B' k 0) →
  named_features A B location = named_features A' B' location.
Proof.
  intros HA HB. unfold named_features, diff_features. cbv zeta.
  cbn [fmap list_fmap app]. rewrite !HA, !HB. reflexivity.
Qed.

Lemma build_features_ext (A A' B B' : gmap string pyval) location feature_names :
  (∀ k, _safe_get A k 0 = _safe_get A' k 0) →
  (∀ k, _safe_get B k 0 = _safe_get B' k 0) →
  build_features_from_live A B location feature_names
  = build_features_from_live A' B' location feature_names.
Proof.
  intros HA HB.
  rewrite (surjective_pairing (build_features_from_live A B location feature_names)).
  rewrite (surjective_pairing (build_features_from_live A' B' location feature_names)).
  rewrite !build_features_vector, !build_features_named.
  rewrite (named_features_ext A A' B B' location HA HB). reflexivity.
Qed.

Lemma named_diff_lookup teamA teamB location feature_names :
  Forall (λ '(feat, key),
      (build_features_from_live teamA teamB location feature_names).2 !! feat
      = Some (_safe_get teamA key 0 - _safe_get teamB key 0))
    diff_features.
Proof.
  rewrite build_features_named. unfold named_features.
  generalize (_home_advantage_value location), (_safe_get teamA), (_safe_get teamB).
  intros h gA gB.
  repeat constructor.
Qed.

(** C4. [build_features_from_live] is total and returns a vector laid out
    as [feature_names]: same length, and at every index the derived
    feature of that name, or 0.0 when the name is not a derived feature.
    Each difference feature is [_safe_get] of A minus [_safe_get] of B, and
    [_safe_get] of an absent key is 0.0: nothing raises. *)
Theorem build_features_layout (teamA teamB : gmap string pyval)
    (location : option string) (feature_names : list string) :
  let '(x, f) := build_features_from_live teamA teamB location feature_names in
  length x = length feature_names
  ∧ (∀ (i : nat) name, feature_names !! i = Some name →
       x !! i = Some (match f !! name with Some v => v | None => 0 end))
  ∧ Forall (λ '(feat, key),
       f !! feat = Some (_safe_get teamA key 0 - _safe_get teamB key 0))
      diff_features
  ∧ (∀ key, teamA !! key = None → _safe_get teamA key 0 = 0)
  ∧ (∀ key, teamB !! key = None → _safe_get teamB key 0 = 0).
Proof.
  pose proof (build_features_vector teamA teamB location feature_names) as Hx.
  pose proof (named_diff_lookup teamA teamB location feature_names) as Hd.
  destruct (build_features_from_live teamA teamB location feature_names) as [x f].
  cbn [fst snd] in Hx, Hd. subst x.
  split_and!.
  - apply length_fmap.
  - intros i name Hi. rewrite list_lookup_fmap, Hi. cbn.
    destruct (f !! name); reflexivity.
  - exact Hd.
  - intros key Hk. by apply safe_get_absent.
  - intros key Hk. by apply safe_get_absent.
Qed.

(** ** Location strings *)

Lemma isspace_lower_char c : PyStr.isspace (PyStr.lower_char c) = PyStr.isspace c.
Proof. destruct c as [[] [] [] [] [] [] [] []]; reflexivity. Qed.

Lemma lower_lstrip s : PyStr.lower (PyStr.lstrip s) = PyStr.lstrip (PyStr.lower s).
Proof.
  induction s as [|c s IH]; [reflexivity|].
  cbn [PyStr.lower PyStr.lstrip]. rewrite isspace_lower_char.
  destruct (PyStr.isspace c); [exact IH | reflexivity].
Qed.

Lemma lower_rstrip s : PyStr.lower (PyStr.rstrip s) = PyStr.rstrip (PyStr.lower s).
Proof.
  induction s as [|c s IH]; [reflexivity|].
  cbn [PyStr.lower PyStr.rstrip]. rewrite <- IH, isspace_lower_char.
  destruct (PyStr.rstrip s); cbn [PyStr.lower]; [|reflexivity].
  destruct (PyStr.isspace c); reflexivity.
Qed.

Lemma lower_strip s : PyStr.lower (PyStr.strip s) = PyStr.strip (PyStr.lower s).
Proof. unfold PyStr.strip. rewrite lower_rstrip, lower_lstrip. reflexivity. Qed.

(** C8, as the code has it. The location is stripped of surrounding white
    space before it is compared: [_home_advantage_value] is +1.0 when the
    stripped, lower-cased location is "home", -1.0 when it is "away" and 0.0
    otherwise ([None], "neutral" and the empty string included); two
    locations that differ only in letter case get the same value. *)
Theorem home_advantage_value_spec (location : option string) :
  let loc := PyStr.lower (PyStr.strip (default EmptyString location)) in
  (loc = "home"%string → _home_advantage_value location = 1)
  ∧ (loc = "away"%string → _home_advantage_value location = -1)
  ∧ (loc ≠ "home"%string → loc ≠ "away"%string → _home_advantage_value location = 0)
  ∧ (∀ s s', location = Some s → PyStr.lower s' = PyStr.lower s →
       _home_advantage_value (Some s') = _home_advantage_value location)
  ∧ _home_advantage_value (Some "HOME"%string) = 1
  ∧ _home_advantage_value (Some "Home"%string) = 1
  ∧ _home_advantage_value (Some "home"%string) = 1
  ∧ _home_advantage_value (Some "AWAY"%string) = -1
  ∧ _home_advantage_value (Some "neutral"%string) = 0
  ∧ _home_advantage_value (Some EmptyString) = 0
  ∧ _home_advantage_value None = 0.
Proof.
  cbv zeta. unfold _home_advantage_value. cbv zeta.
  split_and!; try reflexivity.
  - intros ->. reflexivity.
  - intros ->. reflexivity.
  - intros H1 H2. rewrite !decide_False by done. reflexivity.
  - intros s s' -> Hs.
    change (default EmptyString (Some s)) with s.
    change (default EmptyString (Some s')) with s'.
    rewrite !lower_strip, Hs. reflexivity.
Qed.

(** ** The logistic transform *)

Lemma logistic_bounds e : 0 < e → 0 < 1 / (1 + e) < 1 ∧ 0 < e / (1 + e) < 1.
Proof.
  intros He.
  assert (0 < / (1 + e)) as Hy by (apply Rinv_0_lt_compat; lra).
  assert ((1 + e) * / (1 + e) = 1) as Hm by (apply Rinv_r; lra).
  unfold Rdiv. set (y := / (1 + e)) in *. nra.
Qed.

Lemma exp_opp_mult z : exp z * exp (- z) = 1.
Proof. rewrite <- exp_plus, Rplus_opp_r. apply exp_0. Qed.

(** Both branches compute the same function. *)
Lemma sigmoid_closed_form z : _sigmoid z = 1 / (1 + exp (- z)).
Proof.
  unfold _sigmoid. case_decide; cbv zeta; [reflexivity|].
  pose proof (exp_pos z) as Hz. pose proof (exp_pos (- z)) as Hn.
  pose proof (exp_opp_mult z) as Hm.
  apply Rmult_eq_reg_r with ((1 + exp z) * (1 + exp (- z))); [|nra].
  field_simplify; [nra | lra | lra].
Qed.

Lemma sigmoid_zero : _sigmoid 0 = 1 / 2.
Proof. rewrite sigmoid_closed_form, Ropp_0, exp_0. lra. Qed.

Lemma sigmoid_opp z : _sigmoid z = 1 - _sigmoid (- z).
Proof.
  rewrite !sigmoid_closed_form, Ropp_involutive.
  pose proof (exp_pos z) as Hz. pose proof (exp_pos (- z)) as Hn.
  pose proof (exp_opp_mult z) as Hm.
  apply Rmult_eq_reg_r with ((1 + exp z) * (1 + exp (- z))); [|nra].
  field_simplify; [nra | lra | lra].
Qed.

(** ** The standardise-and-score stage *)

Lemma standardize_lookup (x_raw mean_vec scale_vec : list R) (i : nat) :
  standardize x_raw mean_vec scale_vec !! i
  = (v ← x_raw !! i; m ← mean_vec !! i; s ← scale_vec !! i;
     Some (if decide (s = 0) then 0 else (v - m) / s)).
Proof.
  unfold standardize. rewrite list_lookup_fmap, !lookup_zip_with.
  destruct (x_raw !! i), (mean_vec !! i), (scale_vec !! i); reflexivity.
Qed.

Lemma terms_lookup (coef_vec x_std : list R) (i : nat) :
  ((λ '(c, v), c * v) <$> zip coef_vec x_std) !! i
  = (c ← coef_vec !! i; v ← x_std !! i; Some (c * v)).
Proof.
  rewrite list_lookup_fmap, lookup_zip_with.
  destruct (coef_vec !! i), (x_std !! i); reflexivity.
Qed.

Lemma lookup_same_length (l l' : list R) (i : nat) :
  length l' = length l →
  (∃ v v', l !! i = Some v ∧ l' !! i = Some v') ∨ (l !! i = None ∧ l' !! i = None).
Proof.
  intros Hlen. destruct (decide (i < length l)%nat) as [Hi|Hi].
  - left. destruct (lookup_lt_is_Some_2 l i Hi) as [v Hv].
    destruct (lookup_lt_is_Some_2 l' i ltac:(lia)) as [v' Hv']. eauto.
  - right. split; apply lookup_ge_None; lia.
Qed.

(** The score reads the raw vector only through the products it sums. *)
Lemma score_raw_irrelevant (x_raw x_raw' mean_vec scale_vec coef_vec : list R)
    (intercept : R) (i : nat) :
  length x_raw' = length x_raw →
  (∀ j, j ≠ i → x_raw' !! j = x_raw !! j) →
  scale_vec !! i = Some 0 ∨ coef_vec !! i = Some 0 →
  score x_raw' mean_vec scale_vec coef_vec intercept
  = score x_raw mean_vec scale_vec coef_vec intercept.
Proof.
  intros Hlen Hother Hzero. unfold score, linear_model. cbv zeta.
  replace ((λ '(c, v), c * v) <$> zip coef_vec (standardize x_raw' mean_vec scale_vec))
    with ((λ '(c, v), c * v) <$> zip coef_vec (standardize x_raw mean_vec scale_vec));
    [reflexivity|].
  apply list_eq. intros j. rewrite !terms_lookup, !standardize_lookup.
  destruct (decide (j = i)) as [->|Hne]; [|rewrite (Hother j Hne); reflexivity].
  destruct (lookup_same_length x_raw x_raw' i Hlen) as [(v & v' & -> & ->)|[-> ->]];
    [|reflexivity].
  destruct Hzero as [-> | ->].
  - destruct (coef_vec !! i), (mean_vec !! i); cbn; try reflexivity.
    rewrite !decide_True by reflexivity. reflexivity.
  - destruct (mean_vec !! i), (scale_vec !! i); cbn; try reflexivity.
    f_equal. lra.
Qed.

(** C3. Where the scale is 0.0 the standardised value is 0.0: at an index
    inside the raw and the mean vector the standardised vector holds exactly
    0.0 there, for either raw vector. Two raw vectors that differ only at
    that index give the same standardised vector and the same pair of
    probabilities, whatever the coefficients. *)
Theorem zero_scale_masks_raw_value (x_raw x_raw' mean_vec scale_vec coef_vec : list R)
    (intercept : R) (i : nat) :
  scale_vec !! i = Some 0 →
  length x_raw' = length x_raw →
  (∀ j, j ≠ i → x_raw' !! j = x_raw !! j) →
  (∀ v, standardize x_raw mean_vec scale_vec !! i = Some v → v = 0)
  ∧ ((i < length x_raw)%nat → (i < length mean_vec)%nat →
     standardize x_raw mean_vec scale_vec !! i = Some 0
     ∧ standardize x_raw' mean_vec scale_vec !! i = Some 0)
  ∧ standardize x_raw' mean_vec scale_vec = standardize x_raw mean_vec scale_vec
  ∧ score x_raw' mean_vec scale_vec coef_vec intercept
    = score x_raw mean_vec scale_vec coef_vec intercept.
Proof.
  intros Hs Hlen Hother. split_and!.
  - intros v. rewrite standardize_lookup, Hs.
    destruct (x_raw !! i), (mean_vec !! i); cbn; try discriminate.
    rewrite decide_True by reflexivity. congruence.
  - intros Hx Hm. rewrite !standardize_lookup, Hs.
    destruct (lookup_lt_is_Some_2 x_raw i Hx) as [v ->].
    destruct (lookup_lt_is_Some_2 x_raw' i ltac:(lia)) as [v' ->].
    destruct (lookup_lt_is_Some_2 mean_vec i Hm) as [m ->]. cbn.
    rewrite !decide_True by reflexivity. split; reflexivity.
  - apply list_eq. intros j. rewrite !standardize_lookup.
    destruct (decide (j = i)) as [->|Hne]; [|rewrite (Hother j Hne); reflexivity].
    rewrite Hs.
    destruct (lookup_same_length x_raw x_raw' i Hlen) as [(v & v' & -> & ->)|[-> ->]];
      [|reflexivity].
    destruct (mean_vec !! i); cbn; [|reflexivity].
    rewrite !decide_True by reflexivity. reflexivity.
  - apply score_raw_irrelevant with i; auto.
Qed.

Lemma standardize_take (x_raw mean_vec scale_vec : list R) (n i : nat) :
  (i < n)%nat →
  standardize (take n x_raw) (take n mean_vec) (take n scale_vec) !! i
  = standardize x_raw mean_vec scale_vec !! i.
Proof.
  intros Hi. rewrite !standardize_lookup, !lookup_take_lt by done. reflexivity.
Qed.

Lemma score_take (x_raw mean_vec scale_vec coef_vec : list R) (intercept : R) :
  let n := Nat.min (Nat.min (length x_raw) (length mean_vec))
                   (Nat.min (length scale_vec) (length coef_vec)) in
  score x_raw mean_vec scale_vec coef_vec intercept
  = score (take n x_raw) (take n mean_vec) (take n scale_vec) (take n coef_vec) intercept.
Proof.
  intros n. unfold score, linear_model. cbv zeta.
  replace ((λ '(c, v), c * v) <$> zip (take n coef_vec)
             (standardize (take n x_raw) (take n mean_vec) (take n scale_vec)))
    with ((λ '(c, v), c * v) <$> zip coef_vec (standardize x_raw mean_vec scale_vec));
    [reflexivity|].
  apply list_eq. intros j. rewrite !terms_lookup.
  destruct (decide (j < n)%nat) as [Hj|Hj].
  - rewrite standardize_take, lookup_take_lt by done. reflexivity.
  - rewrite (lookup_take_ge coef_vec) by lia. cbn.
    rewrite standardize_lookup.
    assert (x_raw !! j = None ∨ mean_vec !! j = None
            ∨ scale_vec !! j = None ∨ coef_vec !! j = None) as Hnone
      by (rewrite !lookup_ge_None; lia).
    destruct (coef_vec !! j), (x_raw !! j), (mean_vec !! j), (scale_vec !! j);
      cbn; try reflexivity.
    destruct Hnone as [?|[?|[?|?]]]; discriminate.
Qed.

(** ** The artifact reader *)

Lemma load_artifacts_Some_inv store feature_names coef_vec intercept mean_vec scale_vec :
  load_logistic_artifacts store
  = Some (feature_names, coef_vec, intercept, mean_vec, scale_vec) →
  ∃ meta coefs means scales,
    logistic_model_meta store = Some meta
    ∧ logistic_signed_coefficients store = Some coefs
    ∧ scaler_mean store = Some means
    ∧ scaler_scale store = Some scales
    ∧ meta_feature_names meta = Some feature_names
    ∧ py_float (default (PyFloat 0) (meta_intercept meta)) = Some intercept
    ∧ mapM (λ f, py_float (default (PyFloat 0) (coefs !! f))) feature_names = Some coef_vec
    ∧ mapM (λ f, py_float (default (PyFloat 0) (means !! f))) feature_names = Some mean_vec
    ∧ mapM (λ f, py_float (default (PyFloat 1) (scales !! f))) feature_names = Some scale_vec.
Proof.
  unfold load_logistic_artifacts. intros H.
  apply bind_Some in H as (meta & Hmeta & H).
  apply bind_Some in H as (coefs & Hcoefs & H).
  apply bind_Some in H as (means & Hmeans & H).
  apply bind_Some in H as (scales & Hscales & H).
  apply bind_Some in H as (names & Hnames & H).
  apply bind_Some in H as (b & Hb & H).
  apply bind_Some in H as (cv & Hc & H).
  apply bind_Some in H as (mv & Hm & H).
  apply bind_Some in H as (sv & Hs & H).
  injection H as <- <- <- <- <-.
  exists meta, coefs, means, scales. split_and!; auto.
Qed.

Lemma load_artifacts_lengths store feature_names coef_vec intercept mean_vec scale_vec :
  load_logistic_artifacts store
  = Some (feature_names, coef_vec, intercept, mean_vec, scale_vec) →
  length coef_vec = length feature_names
  ∧ length mean_vec = length feature_names
  ∧ length scale_vec = length feature_names.
Proof.
  intros H. apply load_artifacts_Some_inv in H
    as (meta & coefs & means & scales & _ & _ & _ & _ & _ & _ & Hc & Hm & Hs).
  apply length_mapM in Hc, Hm, Hs. auto.
Qed.

Lemma mapM_lookup {A B : Type} (g : A → option B) (l : list A) (k : list B) (i : nat) a :
  mapM g l = Some k → l !! i = Some a → k !! i = g a.
Proof.
  intros Hk Ha. apply mapM_Some_1 in Hk.
  destruct (Forall2_lookup_l _ _ _ _ _ Hk Ha) as (b & -> & Hb). by rewrite Hb.
Qed.

(** The prediction in terms of its three stages. *)
Lemma predict_unfold (teamA teamB : gmap string pyval) location store
    feature_names coef_vec intercept mean_vec scale_vec :
  load_logistic_artifacts store
  = Some (feature_names, coef_vec, intercept, mean_vec, scale_vec) →
  predict_logistic_from_artifacts teamA teamB location store
  = let built := build_features_from_live teamA teamB location feature_names in
    let p := score built.1 mean_vec scale_vec coef_vec intercept in
    Some (p.1, p.2, built.2).
Proof.
  intros Hload. unfold predict_logistic_from_artifacts. rewrite Hload.
  cbn -[build_features_from_live score].
  destruct (build_features_from_live teamA teamB location feature_names) as [x used].
  cbn -[score].
  destruct (score x mean_vec scale_vec coef_vec intercept) as [pA pB].
  reflexivity.
Qed.

Lemma predict_is_Some (teamA teamB : gmap string pyval) location store :
  is_Some (load_logistic_artifacts store) →
  is_Some (predict_logistic_from_artifacts teamA teamB location store).
Proof.
  intros [[[[[names cv] b] mv] sv] Hload].
  rewrite (predict_unfold _ _ _ _ _ _ _ _ _ Hload). cbv zeta. eauto.
Qed.

Lemma predict_ext (A A' B B' : gmap string pyval) location store :
  (∀ names, build_features_from_live A B location names
            = build_features_from_live A' B' location names) →
  predict_logistic_from_artifacts A B location store
  = predict_logistic_from_artifacts A' B' location store.
Proof.
  intros Hbuild.
  destruct (load_logistic_artifacts store) as [[[[[names cv] b] mv] sv]|] eqn:Hload.
  - rewrite !(predict_unfold _ _ _ _ _ _ _ _ _ Hload), Hbuild. reflexivity.
  - unfold predict_logistic_from_artifacts. rewrite Hload. reflexivity.
Qed.

(** C6. When the four documents are present and hold numbers,
    [load_logistic_artifacts] returns the feature names with three vectors
    of the same length, entry [i] being the table's value for the [i]-th
    name, 0.0 for a name absent from the coefficients or the means and 1.0
    for a name absent from the scales. A name absent from the coefficients
    has coefficient 0.0, so the score does not depend on the raw value at
    its index. *)
Theorem load_artifacts_aligned (store : artifacts) (meta : meta_doc)
    (coefs means scales : gmap string pyval) (feature_names : list string) :
  logistic_model_meta store = Some meta →
  logistic_signed_coefficients store = Some coefs →
  scaler_mean store = Some means →
  scaler_scale store = Some scales →
  meta_feature_names meta = Some feature_names →
  is_Some (py_float (default (PyFloat 0) (meta_intercept meta))) →
  (∀ f, f ∈ feature_names → is_Some (py_float (default (PyFloat 0) (coefs !! f)))) →
  (∀ f, f ∈ feature_names → is_Some (py_float (default (PyFloat 0) (means !! f)))) →
  (∀ f, f ∈ feature_names → is_Some (py_float (default (PyFloat 1) (scales !! f)))) →
  ∃ coef_vec intercept mean_vec scale_vec,
    load_logistic_artifacts store
    = Some (feature_names, coef_vec, intercept, mean_vec, scale_vec)
    ∧ length coef_vec = length feature_names
    ∧ length mean_vec = length feature_names
    ∧ length scale_vec = length feature_names
    ∧ (∀ (i : nat) f, feature_names !! i = Some f →
         coef_vec !! i = py_float (default (PyFloat 0) (coefs !! f))
         ∧ mean_vec !! i = py_float (default (PyFloat 0) (means !! f))
         ∧ scale_vec !! i = py_float (default (PyFloat 1) (scales !! f)))
    ∧ (∀ (i : nat) f, feature_names !! i = Some f → coefs !! f = None →
         coef_vec !! i = Some 0)
    ∧ (∀ (i : nat) f, feature_names !! i = Some f → means !! f = None →
         mean_vec !! i = Some 0)
    ∧ (∀ (i : nat) f, feature_names !! i = Some f → scales !! f = None →
         scale_vec !! i = Some 1)
    ∧ (∀ (i : nat) f (x_raw : list R) v,
         feature_names !! i = Some f → coefs !! f = None →
         score (<[i := v]> x_raw) mean_vec scale_vec coef_vec intercept
         = score x_raw mean_vec scale_vec coef_vec intercept).
Proof.
  intros Hmeta Hcoefs Hmeans Hscales Hnames [b Hb] Hc Hm Hs.
  destruct (mapM_is_Some_2 (λ f, py_float (default (PyFloat 0) (coefs !! f)))
              feature_names) as [cv Hcv]; [by apply Forall_forall|].
  destruct (mapM_is_Some_2 (λ f, py_float (default (PyFloat 0) (means !! f)))
              feature_names) as [mv Hmv]; [by apply Forall_forall|].
  destruct (mapM_is_Some_2 (λ f, py_float (default (PyFloat 1) (scales !! f)))
              feature_names) as [sv Hsv]; [by apply Forall_forall|].
  assert (∀ (i : nat) f, feature_names !! i = Some f → coefs !! f = None →
            cv !! i = Some 0) as Hzero.
  { intros i f Hi Hf. rewrite (mapM_lookup _ _ _ _ _ Hcv Hi), Hf. reflexivity. }
  exists cv, b, mv, sv. split_and!.
  - unfold load_logistic_artifacts.
    rewrite Hmeta, Hcoefs, Hmeans, Hscales. cbn.
    rewrite Hnames. cbn. rewrite Hb. cbn. rewrite Hcv. cbn. rewrite Hmv. cbn.
    rewrite Hsv. reflexivity.
  - symmetry. by eapply length_mapM.
  - symmetry. by eapply length_mapM.
  - symmetry. by eapply length_mapM.
  - intros i f Hi. split_and!.
    + apply (mapM_lookup _ _ _ _ _ Hcv Hi).
    + apply (mapM_lookup _ _ _ _ _ Hmv Hi).
    + apply (mapM_lookup _ _ _ _ _ Hsv Hi).
  - exact Hzero.
  - intros i f Hi Hf. rewrite (mapM_lookup _ _ _ _ _ Hmv Hi), Hf. reflexivity.
  - intros i f Hi Hf. rewrite (mapM_lookup _ _ _ _ _ Hsv Hi), Hf. reflexivity.
  - intros i f x_raw v Hi Hf. apply score_raw_irrelevant with i.
    + apply length_insert.
    + intros j Hj. apply list_lookup_insert_ne. congruence.
    + right. eauto.
Qed.

(** C7, as the code has it. The stage checks no length: its loops run over
    [zip], so the result is the one computed on the vectors cut to the
    shortest of the four; and inside [predict_logistic_from_artifacts] the
    raw vector and the three parameter vectors all have the length of
    [feature_names], so no mismatch arises there and nothing is raised. *)
Theorem score_lengths_contract :
  (∀ (x_raw mean_vec scale_vec coef_vec : list R) (intercept : R),
     let n := Nat.min (Nat.min (length x_raw) (length mean_vec))
                      (Nat.min (length scale_vec) (length coef_vec)) in
     score x_raw mean_vec scale_vec coef_vec intercept
     = score (take n x_raw) (take n mean_vec) (take n scale_vec) (take n coef_vec)
         intercept)
  ∧ (∀ (teamA teamB : gmap string pyval) location store
       feature_names coef_vec intercept mean_vec scale_vec,
       load_logistic_artifacts store
       = Some (feature_names, coef_vec, intercept, mean_vec, scale_vec) →
       length (build_features_from_live teamA teamB location feature_names).1
       = length feature_names
       ∧ length mean_vec = length feature_names
       ∧ length scale_vec = length feature_names
       ∧ length coef_vec = length feature_names
       ∧ is_Some (predict_logistic_from_artifacts teamA teamB location store)).
Proof.
  split.
  - intros. apply score_take.
  - intros teamA teamB location store names cv b mv sv Hload.
    destruct (load_artifacts_lengths _ _ _ _ _ _ Hload) as (Hc & Hm & Hs).
    split_and!; auto.
    + rewrite build_features_vector. apply length_fmap.
    + apply predict_is_Some. eauto.
Qed.

(** C10. A stat whose value [float()] rejects is read as 0.0, exactly as
    if its key were absent: the builder and the prediction are the same
    with the key deleted, on either side, and the prediction returns
    whenever the artifacts load. *)
Theorem unconvertible_stat_is_absent (d other : gmap string pyval) (k : string)
    (v : pyval) (location : option string) (feature_names : list string)
    (store : artifacts) :
  d !! k = Some v →
  py_float v = None →
  _safe_get d k 0 = 0
  ∧ _safe_get d k 0 = _safe_get (delete k d) k 0
  ∧ build_features_from_live d other location feature_names
    = build_features_from_live (delete k d) other location feature_names
  ∧ build_features_from_live other d location feature_names
    = build_features_from_live other (delete k d) location feature_names
  ∧ predict_logistic_from_artifacts d other location store
    = predict_logistic_from_artifacts (delete k d) other location store
  ∧ predict_logistic_from_artifacts other d location store
    = predict_logistic_from_artifacts other (delete k d) location store
  ∧ (is_Some (load_logistic_artifacts store) →
     is_Some (predict_logistic_from_artifacts d other location store)
     ∧ is_Some (predict_logistic_from_artifacts other d location store)).
Proof.
  intros Hk Hv.
  assert (∀ k', _safe_get d k' 0 = _safe_get (delete k d) k' 0) as Hsame.
  { intros k'. destruct (decide (k = k')) as [<-|Hne].
    - rewrite (safe_get_unconvertible d k v 0 Hk Hv).
      rewrite safe_get_absent by apply lookup_delete_eq. reflexivity.
    - rewrite safe_get_delete_ne by done. reflexivity. }
  split_and!.
  - by eapply safe_get_unconvertible.
  - apply Hsame.
  - by apply build_features_ext.
  - by apply build_features_ext.
  - apply predict_ext. intros names. by apply build_features_ext.
  - apply predict_ext. intros names. by apply build_features_ext.
  - intros Hload. split; by apply predict_is_Some.
Qed.

(** ** A numeric enclosure of exp(-1) *)

Lemma bound_scale_pos : 0 < IZR bound_scale.
Proof. apply IZR_lt. reflexivity. Qed.

Lemma div_mult_cancel a d : d ≠ 0 → a / d * d = a.
Proof. intros Hd. field. exact Hd. Qed.

Lemma exp_double x : exp (2 * x) = exp x * exp x.
Proof. replace (2 * x) with (x + x) by lra. apply exp_plus. Qed.

Lemma square_down_sound k : ∀ a x,
  (0 <= a)%Z →
  IZR a / IZR bound_scale <= exp x →
  IZR (square_down k a) / IZR bound_scale <= exp (2 ^ k * x).
Proof.
  induction k as [|k IH]; intros a x Ha Hx.
  - cbn. rewrite Rmult_1_l. exact Hx.
  - cbn [square_down]. replace (2 ^ S k * x) with (2 ^ k * (2 * x)) by (cbn; ring).
    apply IH.
    + apply Z.div_pos; [nia | reflexivity].
    + rewrite exp_double.
      pose proof bound_scale_pos as HD. pose proof (exp_pos x) as He.
      assert (IZR bound_scale * IZR (a * a / bound_scale) <= IZR a * IZR a) as Hq.
      { rewrite <- !mult_IZR. apply IZR_le. apply Z.mul_div_le. reflexivity. }
      assert (0 <= IZR a) as Ha' by (apply IZR_le; exact Ha).
      assert (IZR a <= exp x * IZR bound_scale) as Hx'.
      { apply (Rmult_le_compat_r (IZR bound_scale)) in Hx; [|lra].
        rewrite div_mult_cancel in Hx; lra. }
      apply Rmult_le_reg_r with (IZR bound_scale); [exact HD|].
      rewrite div_mult_cancel by lra.
      apply Rmult_le_reg_r with (IZR bound_scale); [exact HD|].
      assert (IZR a * IZR a <= exp x * IZR bound_scale * (exp x * IZR bound_scale))
        as Hsq by (apply Rmult_le_compat; lra).
      lra.
Qed.

Lemma square_up_sound k : ∀ a x,
  (0 <= a)%Z →
  exp x <= IZR a / IZR bound_scale →
  exp (2 ^ k * x) <= IZR (square_up k a) / IZR bound_scale.
Proof.
  induction k as [|k IH]; intros a x Ha Hx.
  - cbn. rewrite Rmult_1_l. exact Hx.
  - cbn [square_up]. replace (2 ^ S k * x) with (2 ^ k * (2 * x)) by (cbn; ring).
    apply IH.
    + apply Z.div_pos; [unfold bound_scale; nia | reflexivity].
    + rewrite exp_double.
      pose proof bound_scale_pos as HD. pose proof (exp_pos x) as He.
      assert (IZR a * IZR a
              <= IZR bound_scale * IZR ((a * a + bound_scale - 1) / bound_scale)) as Hq.
      { rewrite <- !mult_IZR. apply IZR_le.
        pose proof (Z.mul_succ_div_gt (a * a + bound_scale - 1) bound_scale
                      ltac:(reflexivity)). lia. }
      assert (exp x * IZR bound_scale <= IZR a) as Hx'.
      { apply (Rmult_le_compat_r (IZR bound_scale)) in Hx; [|lra].
        rewrite div_mult_cancel in Hx; lra. }
      apply Rmult_le_reg_r with (IZR bound_scale); [exact HD|].
      rewrite div_mult_cancel by lra.
      apply Rmult_le_reg_r with (IZR bound_scale); [exact HD|].
      assert (exp x * IZR bound_scale * (exp x * IZR bound_scale) <= IZR a * IZR a)
        as Hsq by (apply Rmult_le_compat; nra).
      lra.
Qed.

Lemma exp_minus_one_enclosure : 367876 / 1000000 < exp (- 1) < 367883 / 1000000.
Proof.
  set (x := - / 65536).
  assert (2 ^ 16 * x = - 1) as Hpow by (unfold x; lra).
  split.
  - pose proof (square_down_sound 16 999984741210 x ltac:(lia)) as H.
    rewrite Hpow in H.
    replace (square_down 16 999984741210) with 367876598232%Z in H
      by (vm_compute; reflexivity).
    unfold bound_scale in H. cbn in H.
    assert (999984741210 / 1000000000000 <= exp x) as Hx.
    { pose proof (exp_ineq1_le x). unfold x in *. lra. }
    specialize (H Hx). lra.
  - pose proof (square_up_sound 16 999984741444 x ltac:(lia)) as H.
    rewrite Hpow in H.
    replace (square_up 16 999984741444) with 367882265226%Z in H
      by (vm_compute; reflexivity).
    unfold bound_scale in H. cbn in H.
    assert (exp x <= 999984741444 / 1000000000000) as Hx.
    { pose proof (exp_ineq1_le (- x)) as Hn. pose proof (exp_opp_mult x) as Hm.
      pose proof (exp_pos x) as Hp. unfold x in *. rewrite Ropp_involutive in *.
      nra. }
    specialize (H Hx). lra.
Qed.

(** ** The logistic transform in binary64 *)

Lemma exp_nat_mult (n : nat) (x : R) : exp (INR n * x) = exp x ^ n.
Proof.
  induction n as [|n IH].
  - cbn. rewrite Rmult_0_l. apply exp_0.
  - rewrite S_INR, Rmult_plus_distr_r, Rmult_1_l, exp_plus, IH. cbn. lra.
Qed.

(** e^-n is below 2^-k as soon as 0.367883^n is. *)
Lemma exp_neg_nat_below (n k : nat) :
  (367883 ^ Z.of_nat n * 2 ^ Z.of_nat k <? 1000000 ^ Z.of_nat n)%Z = true →
  exp (- INR n) < / 2 ^ k.
Proof.
  intros Hlt. apply Z.ltb_lt in Hlt. apply IZR_lt in Hlt.
  rewrite mult_IZR, <- !pow_IZR in Hlt.
  replace (- INR n) with (INR n * - 1) by lra. rewrite exp_nat_mult.
  assert (exp (- 1) ^ n <= (367883 / 1000000) ^ n) as Hpow.
  { apply pow_incr. pose proof (exp_pos (- 1)). pose proof exp_minus_one_enclosure. lra. }
  assert (0 < 2 ^ k) as H2 by (apply pow_lt; lra).
  assert (0 < 1000000 ^ n) as H10 by (apply pow_lt; lra).
  unfold Rdiv in Hpow. rewrite Rpow_mult_distr, pow_inv in Hpow.
  apply Rle_lt_trans with (367883 ^ n * / 1000000 ^ n); [exact Hpow|].
  apply Rmult_lt_reg_r with (2 ^ k); [exact H2|].
  rewrite Rinv_l by lra.
  apply Rmult_lt_reg_r with (1000000 ^ n); [exact H10|].
  replace (367883 ^ n * / 1000000 ^ n * 2 ^ k * 1000000 ^ n)
    with (367883 ^ n * 2 ^ k * (/ 1000000 ^ n * 1000000 ^ n)) by ring.
  rewrite Rinv_l by lra. lra.
Qed.

(** e^-40 is less than half the gap between 1.0 and the next binary64
    number, so that 1.0 + exp(-40.0) rounds to 1.0. *)
Lemma exp_minus_40_below_half_ulp : exp (- 40) < / 2 ^ 54.
Proof.
  replace (- 40) with (- INR 40) by (cbn; lra).
  apply exp_neg_nat_below. vm_compute. reflexivity.
Qed.

(** e^-750 is less than half the smallest positive binary64 number, so
    that exp(-750.0) rounds to 0.0. *)
Lemma exp_minus_750_underflows : exp (- 750) < / 2 ^ 1075.
Proof.
  assert (exp (- INR 50) < / 2 ^ 72) as H50
    by (apply exp_neg_nat_below; vm_compute; reflexivity).
  replace (- 750) with (INR 15 * - INR 50).
  2:{ rewrite !INR_IZR_INZ. change (Z.of_nat 15) with 15%Z.
      change (Z.of_nat 50) with 50%Z. lra. }
  rewrite exp_nat_mult.
  apply Rle_lt_trans with ((/ 2 ^ 72) ^ 15).
  - apply pow_incr. pose proof (exp_pos (- INR 50)). lra.
  - rewrite pow_inv, <- pow_mult.
    apply Rinv_lt_contravar.
    + apply Rmult_lt_0_compat; apply pow_lt; lra.
    + apply Rlt_pow; [lra | cbn; lia].
Qed.

Lemma sigmoid_binary64_nonneg (x : float) :
  (0 <=? x)%float = true → _sigmoid_binary64 x = (1 / (1 + math_exp (- x)))%float.
Proof. intros Hx. unfold _sigmoid_binary64. rewrite Hx. reflexivity. Qed.

Lemma sigmoid_binary64_neg (x : float) :
  (0 <=? x)%float = false → _sigmoid_binary64 x = (math_exp x / (1 + math_exp x))%float.
Proof. intros Hx. unfold _sigmoid_binary64. rewrite Hx. reflexivity. Qed.

(** C5, as the code has it. [_sigmoid] takes the branch 1/(1+exp(-z)) for
    z >= 0 and exp(z)/(1+exp(z)) for z < 0. Read in exact arithmetic the two
    branches are one function, strictly between 0 and 1, equal to 0.5 at 0
    and with sigmoid(z) = 1 - sigmoid(-z). In binary64 the same two branches
    are taken, and the result is exactly 1.0 whenever 1.0 + exp(-z) rounds
    to 1.0, exactly 0.0 whenever exp(z) is 0.0, and exactly 0.5 at 0.0 and
    at -0.0; e^-40 and e^-750 are small enough for the first two to happen
    at z = 40.0 and z = -750.0. *)
Theorem sigmoid_properties (z : R) (x : float) :
  (z >= 0 → _sigmoid z = 1 / (1 + exp (- z)))
  ∧ (z < 0 → _sigmoid z = exp z / (1 + exp z))
  ∧ 0 < _sigmoid z < 1
  ∧ _sigmoid 0 = 1 / 2
  ∧ _sigmoid z = 1 - _sigmoid (- z)
  ∧ ((0 <=? x)%float = true →
     _sigmoid_binary64 x = (1 / (1 + math_exp (- x)))%float)
  ∧ ((0 <=? x)%float = false →
     _sigmoid_binary64 x = (math_exp x / (1 + math_exp x))%float)
  ∧ ((0 <=? x)%float = true → (1 + math_exp (- x))%float = 1%float →
     _sigmoid_binary64 x = 1%float)
  ∧ ((0 <=? x)%float = false → math_exp x = 0%float → _sigmoid_binary64 x = 0%float)
  ∧ (math_exp 0 = 1%float → math_exp (- 0)%float = 1%float →
     _sigmoid_binary64 0 = 0.5%float ∧ _sigmoid_binary64 (- 0) = 0.5%float)
  ∧ exp (- 40) < / 2 ^ 54
  ∧ exp (- 750) < / 2 ^ 1075.
Proof.
  split_and!.
  - intros Hz. unfold _sigmoid. rewrite decide_True by done. reflexivity.
  - intros Hz. unfold _sigmoid. rewrite decide_False by lra. reflexivity.
  - rewrite sigmoid_closed_form. apply logistic_bounds, exp_pos.
  - rewrite sigmoid_closed_form. apply logistic_bounds, exp_pos.
  - apply sigmoid_zero.
  - apply sigmoid_opp.
  - apply sigmoid_binary64_nonneg.
  - apply sigmoid_binary64_neg.
  - intros Hx Hone. rewrite sigmoid_binary64_nonneg, Hone by exact Hx. reflexivity.
  - intros Hx Hzero. rewrite sigmoid_binary64_neg, Hzero by exact Hx. reflexivity.
  - intros Hpos Hneg. split.
    + rewrite sigmoid_binary64_nonneg, Hneg by reflexivity. reflexivity.
    + rewrite sigmoid_binary64_nonneg by reflexivity.
      change (- - 0)%float with 0%float. rewrite Hpos. reflexivity.
  - apply exp_minus_40_below_half_ulp.
  - apply exp_minus_750_underflows.
Qed.

(** ** The end-to-end example *)

Lemma example_named_features :
  (build_features_from_live example_teamA example_teamB (Some "home"%string)
     ["home_advantage"; "OffRating_diff"]%string).2 !! "home_advantage"%string = Some 1
  ∧ (build_features_from_live example_teamA example_teamB (Some "home"%string)
       ["home_advantage"; "OffRating_diff"]%string).2 !! "OffRating_diff"%string = Some 10.
Proof.
  rewrite build_features_named. split.
  - reflexivity.
  - transitivity (Some (110 - 100)); [reflexivity | f_equal; lra].
Qed.

Lemma example_score : score [1; 10] [0; 0] [1; 1] [1; 0] 0 = (_sigmoid 1, 1 - _sigmoid 1).
Proof.
  unfold score, linear_model, standardize, py_sum. cbn.
  rewrite !decide_False by lra.
  replace (0 + (0 + 1 * ((1 - 0) / 1) + 0 * ((10 - 0) / 1))) with 1 by lra.
  reflexivity.
Qed.

(** C2. On the example the derived features are home_advantage = 1.0 and
    OffRating_diff = 10.0, the raw and the standardised vectors are
    [1.0, 10.0], the linear score is 1.0, and the prediction returns
    sigmoid(1.0), which is 0.7311 to four decimal places. *)
Theorem end_to_end_example :
  let names := ["home_advantage"; "OffRating_diff"]%string in
  let built :=
    build_features_from_live example_teamA example_teamB (Some "home"%string) names in
  built.2 !! "home_advantage"%string = Some 1
  ∧ built.2 !! "OffRating_diff"%string = Some 10
  ∧ built.1 = [1; 10]
  ∧ load_logistic_artifacts example_artifacts = Some (names, [1; 0], 0, [0; 0], [1; 1])
  ∧ standardize [1; 10] [0; 0] [1; 1] = [1; 10]
  ∧ linear_model [1; 0] 0 [1; 10] = 1
  ∧ predict_logistic_from_artifacts example_teamA example_teamB (Some "home"%string)
      example_artifacts
    = Some (_sigmoid 1, 1 - _sigmoid 1, built.2)
  ∧ Rabs (_sigmoid 1 - 7311 / 10000) < 5 / 100000.
Proof.
  cbv zeta. destruct example_named_features as [Hh Ho].
  assert ((build_features_from_live example_teamA example_teamB (Some "home"%string)
             ["home_advantage"; "OffRating_diff"]%string).1 = [1; 10]) as Hx.
  { rewrite build_features_vector. cbn [fmap list_fmap]. rewrite Hh, Ho. reflexivity. }
  split_and!.
  - exact Hh.
  - exact Ho.
  - exact Hx.
  - reflexivity.
  - unfold standardize. cbn. rewrite !decide_False by lra.
    repeat f_equal; lra.
  - unfold linear_model, py_sum. cbn. lra.
  - rewrite (predict_unfold example_teamA example_teamB (Some "home"%string)
               example_artifacts ["home_advantage"; "OffRating_diff"]%string
               [1; 0] 0 [0; 0] [1; 1] eq_refl).
    cbv zeta. rewrite Hx, example_score. reflexivity.
  - rewrite sigmoid_closed_form.
    replace (- (1)) with (-1) by lra.
    pose proof exp_minus_one_enclosure as [Hl Hu].
    set (e := exp (- 1)) in *.
    assert (0 < / (1 + e)) as Hy by (apply Rinv_0_lt_compat; lra).
    assert ((1 + e) * / (1 + e) = 1) as Hm by (apply Rinv_r; lra).
    unfold Rdiv at 1. rewrite Rmult_1_l. set (y := / (1 + e)) in *.
    assert (0 < y * (e - 367876 / 1000000)) as H1 by (apply Rmult_lt_0_compat; lra).
    assert (0 < y * (367883 / 1000000 - e)) as H2 by (apply Rmult_lt_0_compat; lra).
    apply Rabs_def1; lra.
Qed.

(** ** Exchanging the two teams *)

Lemma list_to_map_keyed_lookup (g : string → R → R) (l : list (string * R)) name :
  (list_to_map ((λ '(k, v), (k, g k v)) <$> l) : gmap string R) !! name
  = g name <$> (list_to_map l : gmap string R) !! name.
Proof.
  induction l as [|[k v] l IH]; [reflexivity|].
  cbn [fmap list_fmap list_to_map foldr]. cbn.
  destruct (decide (k = name)) as [->|Hne].
  - rewrite !lookup_insert_eq. reflexivity.
  - rewrite !lookup_insert_ne by done. exact IH.
Qed.

Lemma swap_named_features (A B : gmap string pyval) (loc loc' : option string) :
  _home_advantage_value loc' = - _home_advantage_value loc →
  named_features B A loc'
  = (λ '(k, v), (k, swap_sign k v)) <$> named_features A B loc.
Proof.
  intros Hh. unfold named_features. rewrite Hh.
  generalize (_home_advantage_value loc), (_safe_get A), (_safe_get B).
  intros h gA gB. cbv zeta. unfold diff_features.
  cbn [fmap list_fmap app].
  repeat (apply (f_equal2 cons);
          [apply (f_equal2 pair); [reflexivity|];
           first [ change (swap_sign ?k ?v) with v | change (swap_sign ?k ?v) with (- v) ];
           lra |]).
  reflexivity.
Qed.

Lemma swap_named_lookup (A B : gmap string pyval) (loc loc' : option string) names name :
  _home_advantage_value loc' = - _home_advantage_value loc →
  (build_features_from_live B A loc' names).2 !! name
  = swap_sign name <$> (build_features_from_live A B loc names).2 !! name.
Proof.
  intros Hh. rewrite !build_features_named, (swap_named_features A B loc loc' Hh).
  apply list_to_map_keyed_lookup.
Qed.

Lemma foldl_Rplus_acc (a : R) (l : list R) : foldl Rplus a l = a + foldl Rplus 0 l.
Proof.
  revert a. induction l as [|x l IH]; intros a; cbn; [lra|].
  rewrite (IH (a + x)), (IH (0 + x)). lra.
Qed.

Lemma py_sum_opp (l : list R) : py_sum (Ropp <$> l) = - py_sum l.
Proof.
  unfold py_sum. induction l as [|x l IH]; cbn; [lra|].
  rewrite (foldl_Rplus_acc (0 + - x)), (foldl_Rplus_acc (0 + x)), IH. lra.
Qed.

Lemma swap_sign_zero name : swap_sign name 0 = 0.
Proof. unfold swap_sign. destruct (bool_decide _); lra. Qed.

Lemma swap_sign_opp name v : name ∉ interaction_features → swap_sign name v = - v.
Proof. intros Hn. unfold swap_sign. rewrite bool_decide_eq_false_2 by done. reflexivity. Qed.

Lemma swap_sign_keep name v : name ∈ interaction_features → swap_sign name v = v.
Proof. intros Hn. unfold swap_sign. rewrite bool_decide_eq_true_2 by done. reflexivity. Qed.

Lemma swap_raw_lookup (A B : gmap string pyval) (loc loc' : option string) names (i : nat) :
  _home_advantage_value loc' = - _home_advantage_value loc →
  (build_features_from_live B A loc' names).1 !! i
  = (name ← names !! i;
     v ← (build_features_from_live A B loc names).1 !! i;
     Some (swap_sign name v)).
Proof.
  intros Hh. rewrite !build_features_vector, !list_lookup_fmap.
  pose proof (swap_named_lookup A B loc loc' names) as Hswap.
  set (U := (build_features_from_live A B loc names).2) in *.
  set (U' := (build_features_from_live B A loc' names).2) in *.
  destruct (names !! i) as [name|]; [|reflexivity].
  change (Some (default 0 (U' !! name)) = Some (swap_sign name (default 0 (U !! name)))).
  rewrite (Hswap name Hh).
  destruct (U !! name); cbn; [reflexivity|].
  rewrite swap_sign_zero. reflexivity.
Qed.

(** C1, as the code has it. Exchanging the teams and reversing the sign of
    the home advantage negates home_advantage and every difference, and
    leaves the two interaction terms unchanged. When moreover the intercept
    is 0.0 and every feature with a non-zero coefficient and a non-zero
    scale has mean 0.0 and is not an interaction term, the linear score is
    negated, and the exchanged call returns the two probabilities of the
    original call in the other order. *)
Theorem swap_symmetry (A B : gmap string pyval) (loc loc' : option string)
    (store : artifacts) (feature_names : list string)
    (coef_vec : list R) (intercept : R) (mean_vec scale_vec : list R) :
  _home_advantage_value loc' = - _home_advantage_value loc →
  load_logistic_artifacts store
  = Some (feature_names, coef_vec, intercept, mean_vec, scale_vec) →
  let used := (build_features_from_live A B loc feature_names).2 in
  let used' := (build_features_from_live B A loc' feature_names).2 in
  (∀ name, name ∉ interaction_features → used' !! name = Ropp <$> used !! name)
  ∧ (∀ name, name ∈ interaction_features → used' !! name = used !! name)
  ∧ (intercept = 0 →
     (∀ (i : nat) name c m s,
        feature_names !! i = Some name → coef_vec !! i = Some c →
        mean_vec !! i = Some m → scale_vec !! i = Some s →
        c = 0 ∨ s = 0 ∨ (m = 0 ∧ name ∉ interaction_features)) →
     ∃ pA pB,
       predict_logistic_from_artifacts A B loc store = Some (pA, pB, used)
       ∧ predict_logistic_from_artifacts B A loc' store = Some (pB, pA, used')).
Proof.
  intros Hh Hload. cbv zeta. split_and!.
  - intros name Hn. rewrite (swap_named_lookup A B loc loc' _ name Hh).
    destruct (_ !! name); cbn; [|reflexivity]. by rewrite swap_sign_opp.
  - intros name Hn. rewrite (swap_named_lookup A B loc loc' _ name Hh).
    destruct (_ !! name); cbn; [|reflexivity]. by rewrite swap_sign_keep.
  - intros -> Hsym.
    rewrite (predict_unfold A B loc store _ _ _ _ _ Hload).
    rewrite (predict_unfold B A loc' store _ _ _ _ _ Hload). cbv zeta.
    set (x := (build_features_from_live A B loc feature_names).1).
    set (x' := (build_features_from_live B A loc' feature_names).1).
    assert ((λ '(c, v), c * v) <$> zip coef_vec (standardize x' mean_vec scale_vec)
            = Ropp <$> ((λ '(c, v), c * v) <$> zip coef_vec (standardize x mean_vec scale_vec)))
      as Hterms.
    { apply list_eq. intros i.
      rewrite terms_lookup, (list_lookup_fmap Ropp), terms_lookup, !standardize_lookup.
      unfold x'. rewrite (swap_raw_lookup A B loc loc' feature_names i Hh). fold x.
      assert (is_Some (x !! i) ↔ is_Some (feature_names !! i)) as Hdom.
      { unfold x. rewrite build_features_vector, list_lookup_fmap. apply fmap_is_Some. }
      destruct (coef_vec !! i) as [c|] eqn:Hc; [|reflexivity].
      destruct (feature_names !! i) as [name|] eqn:Hn; cycle 1.
      { destruct (x !! i) as [v|]; [|reflexivity].
        destruct (proj1 Hdom ltac:(eauto)) as [? ?]. discriminate. }
      destruct (x !! i) as [v|]; [|reflexivity].
      destruct (mean_vec !! i) as [m|] eqn:Hm; [|reflexivity].
      destruct (scale_vec !! i) as [s|] eqn:Hs; [|reflexivity].
      cbn. f_equal.
      destruct (Hsym i name c m s Hn Hc Hm Hs) as [-> | [-> | [-> Hname]]].
      - lra.
      - rewrite !decide_True by reflexivity. lra.
      - rewrite swap_sign_opp by done.
        destruct (decide (s = 0)) as [->|Hs0]; [lra|]. field. exact Hs0. }
    unfold score, linear_model. cbv zeta. rewrite Hterms, py_sum_opp.
    set (S := py_sum _).
    exists (_sigmoid (0 + S)), (1 - _sigmoid (0 + S)). split; [reflexivity|].
    cbn [fst snd].
    replace (0 + - S) with (- (0 + S)) by lra.
    pose proof (sigmoid_opp (- (0 + S))) as Hneg.
    rewrite Ropp_involutive in Hneg. rewrite Hneg.
    replace (1 - (1 - _sigmoid (0 + S))) with (_sigmoid (0 + S)) by lra.
    reflexivity.
Qed.

(** ** Further properties of the predictor *)

(** X3. [load_logistic_artifacts] succeeds exactly when the four documents
    are present, the metadata has [feature_names], the intercept (0.0 when
    absent) converts to a float, and for every listed name each table entry
    that is present converts to a float. Entries under unlisted names are
    never read. *)
Theorem load_succeeds_iff (store : artifacts) :
  is_Some (load_logistic_artifacts store)
  ↔ ∃ meta coefs means scales feature_names,
      logistic_model_meta store = Some meta
      ∧ logistic_signed_coefficients store = Some coefs
      ∧ scaler_mean store = Some means
      ∧ scaler_scale store = Some scales
      ∧ meta_feature_names meta = Some feature_names
      ∧ is_Some (py_float (default (PyFloat 0) (meta_intercept meta)))
      ∧ Forall (λ f, is_Some (py_float (default (PyFloat 0) (coefs !! f)))
                     ∧ is_Some (py_float (default (PyFloat 0) (means !! f)))
                     ∧ is_Some (py_float (default (PyFloat 1) (scales !! f))))
          feature_names.
Proof.
  split.
  - intros [[[[[names cv] b] mv] sv] Hload].
    apply load_artifacts_Some_inv in Hload
      as (meta & coefs & means & scales & H1 & H2 & H3 & H4 & H5 & H6 & Hc & Hm & Hs).
    exists meta, coefs, means, scales, names. split_and!; eauto.
    assert (is_Some (mapM (λ f, py_float (default (PyFloat 0) (coefs !! f))) names))
      as Hc' by eauto.
    assert (is_Some (mapM (λ f, py_float (default (PyFloat 0) (means !! f))) names))
      as Hm' by eauto.
    assert (is_Some (mapM (λ f, py_float (default (PyFloat 1) (scales !! f))) names))
      as Hs' by eauto.
    apply mapM_is_Some_1 in Hc', Hm', Hs'.
    rewrite Forall_forall in Hc', Hm', Hs'. apply Forall_forall. intros f Hf.
    split_and!; [apply (Hc' f Hf) | apply (Hm' f Hf) | apply (Hs' f Hf)].
  - intros (meta & coefs & means & scales & names & H1 & H2 & H3 & H4 & H5 & [b Hb] & Hall).
    rewrite Forall_forall in Hall.
    destruct (mapM_is_Some_2 (λ f, py_float (default (PyFloat 0) (coefs !! f))) names)
      as [cv Hcv]; [apply Forall_forall; intros f Hf; apply (Hall f Hf)|].
    destruct (mapM_is_Some_2 (λ f, py_float (default (PyFloat 0) (means !! f))) names)
      as [mv Hmv]; [apply Forall_forall; intros f Hf; apply (Hall f Hf)|].
    destruct (mapM_is_Some_2 (λ f, py_float (default (PyFloat 1) (scales !! f))) names)
      as [sv Hsv]; [apply Forall_forall; intros f Hf; apply (Hall f Hf)|].
    exists (names, cv, b, mv, sv). unfold load_logistic_artifacts.
    rewrite H1, H2, H3, H4. cbn. rewrite H5. cbn. rewrite Hb. cbn.
    rewrite Hcv. cbn. rewrite Hmv. cbn. rewrite Hsv. reflexivity.
Qed.

Lemma named_features_keys (A B : gmap string pyval) location :
  (named_features A B location).*1 = derived_names.
Proof. reflexivity. Qed.

Lemma list_to_map_is_Some (l : list (string * R)) name :
  is_Some ((list_to_map l : gmap string R) !! name) ↔ name ∈ l.*1.
Proof.
  destruct (decide (name ∈ l.*1)) as [Hin|Hout].
  - split; [auto|]. intros _. apply not_eq_None_Some. intros Hn.
    by apply not_elem_of_list_to_map_2 in Hn.
  - split; [|done]. intros [v Hv].
    rewrite (not_elem_of_list_to_map_1 l name Hout) in Hv. discriminate.
Qed.

(** X6. The named feature set has the same 24 keys whatever the teams and
    the location are. *)
Theorem derived_feature_keys (A B : gmap string pyval) location feature_names name :
  is_Some ((build_features_from_live A B location feature_names).2 !! name)
  ↔ name ∈ derived_names.
Proof.
  rewrite build_features_named, list_to_map_is_Some, named_features_keys. reflexivity.
Qed.



Lemma diff_part_lookup (h : R) (d : string → R) name :
  name ≠ "home_advantage"%string → name ∉ interaction_features →
  (list_to_map
     (("home_advantage"%string, h)
        :: ((λ '(feat, key), (feat, d key)) <$> diff_features)
        ++ [ ("home_x_offrat"%string, h * d "AdjO"%string);
             ("home_x_defrat"%string, h * d "AdjD"%string) ]) : gmap string R) !! name
  = (list_to_map ((λ '(feat, key), (feat, d key)) <$> diff_features) : gmap string R)
      !! name.
Proof.
  intros Hh Hi. rewrite list_to_map_cons, lookup_insert_ne by done.
  rewrite list_to_map_app. apply lookup_union_l.
  apply not_elem_of_list_to_map_1. exact Hi.
Qed.

(** X8. The location reaches the features only through home_advantage and
    the two interaction terms: every other derived feature is the same at
    any two locations, and two locations with the same home-advantage value
    give the same features altogether. *)
Theorem location_reaches_three_features (A B : gmap string pyval)
    (loc loc' : option string) feature_names :
  (∀ name, name ≠ "home_advantage"%string → name ∉ interaction_features →
     (build_features_from_live A B loc' feature_names).2 !! name
     = (build_features_from_live A B loc feature_names).2 !! name)
  ∧ (_home_advantage_value loc' = _home_advantage_value loc →
     build_features_from_live A B loc' feature_names
     = build_features_from_live A B loc feature_names).
Proof.
  split.
  - intros name Hh Hi. rewrite !build_features_named. unfold named_features. cbv zeta.
    rewrite !diff_part_lookup by done. reflexivity.
  - intros Heq.
    rewrite (surjective_pairing (build_features_from_live A B loc' feature_names)).
    rewrite (surjective_pairing (build_features_from_live A B loc feature_names)).
    rewrite !build_features_vector, !build_features_named.
    unfold named_features. rewrite Heq. reflexivity.
Qed.

Lemma self_named_features (A : gmap string pyval) location :
  named_features A A location
  = (λ '(k, v), (k, self_value k v)) <$> named_features A A location.
Proof.
  unfold named_features.
  generalize (_home_advantage_value location), (_safe_get A). intros h g.
  cbv zeta. unfold diff_features. cbn [fmap list_fmap app].
  repeat (apply (f_equal2 cons);
          [apply (f_equal2 pair); [reflexivity|];
           first [ change (self_value ?k ?v) with v; reflexivity
                 | change (self_value ?k ?v) with 0; first [lra | ring] ] |]).
  reflexivity.
Qed.

(** X9. A team against itself: every derived feature other than
    home_advantage is 0.0, the interaction terms included, at any location;
    so is every entry of the raw vector whose name is not home_advantage. *)
Theorem team_against_itself (A : gmap string pyval) location feature_names :
  let built := build_features_from_live A A location feature_names in
  (∀ name v, name ≠ "home_advantage"%string → built.2 !! name = Some v → v = 0)
  ∧ (∀ (i : nat) name v, feature_names !! i = Some name →
       name ≠ "home_advantage"%string → built.1 !! i = Some v → v = 0).
Proof.
  cbv zeta.
  assert (∀ name v, name ≠ "home_advantage"%string →
            (build_features_from_live A A location feature_names).2 !! name = Some v →
            v = 0) as Hnamed.
  { intros name v Hn. rewrite build_features_named, self_named_features.
    rewrite list_to_map_keyed_lookup.
    destruct (_ !! name) as [w|]; cbn; [|discriminate].
    intros [= <-]. unfold self_value. by rewrite decide_False. }
  split; [exact Hnamed|].
  intros i name v Hi Hn. rewrite build_features_vector, list_lookup_fmap, Hi.
  set (U := (build_features_from_live A A location feature_names).2) in *.
  change (Some (default 0 (U !! name)) = Some v → v = 0).
  destruct (U !! name) as [w|] eqn:Hw; cbn; intros [= <-]; [|reflexivity].
  by apply (Hnamed name w).
Qed.

Lemma named_features_ext_on (A A' B B' : gmap string pyval) location :
  (∀ k, k ∈ stat_keys → _safe_get A k 0 = _safe_get A' k 0) →
  (∀ k, k ∈ stat_keys → _safe_get B k 0 = _safe_get B' k 0) →
  named_features A B location = named_features A' B' location.
Proof.
  intros HA HB.
  assert (Forall (λ k, _safe_get A k 0 = _safe_get A' k 0) stat_keys) as FA
    by (by apply Forall_forall).
  assert (Forall (λ k, _safe_get B k 0 = _safe_get B' k 0) stat_keys) as FB
    by (by apply Forall_forall).
  clear HA HB. unfold stat_keys, diff_features in FA, FB.
  cbn [fmap list_fmap snd] in FA, FB.
  unfold named_features, diff_features. cbv zeta. cbn [fmap list_fmap app].
  repeat (apply Forall_cons in FA as [EA FA]; rewrite !EA; clear EA).
  repeat (apply Forall_cons in FB as [EB FB]; rewrite !EB; clear EB).
  reflexivity.
Qed.

Lemma build_features_ext_on (A A' B B' : gmap string pyval) location feature_names :
  (∀ k, k ∈ stat_keys → _safe_get A k 0 = _safe_get A' k 0) →
  (∀ k, k ∈ stat_keys → _safe_get B k 0 = _safe_get B' k 0) →
  build_features_from_live A B location feature_names
  = build_features_from_live A' B' location feature_names.
Proof.
  intros HA HB.
  rewrite (surjective_pairing (build_features_from_live A B location feature_names)).
  rewrite (surjective_pairing (build_features_from_live A' B' location feature_names)).
  rewrite !build_features_vector, !build_features_named.
  rewrite (named_features_ext_on A A' B B' location HA HB). reflexivity.
Qed.

Lemma safe_get_insert_ne (d : gmap string pyval) k k' v dflt :
  k ≠ k' → _safe_get (<[k := v]> d) k' dflt = _safe_get d k' dflt.
Proof. intros Hne. unfold _safe_get. rewrite lookup_insert_ne by done. reflexivity. Qed.

(** X10. The builder reads 21 stat keys and nothing else: writing any
    value, convertible or not, under any other key of either team mapping
    changes neither the features nor the prediction. *)
Theorem unread_keys_are_ignored (A B : gmap string pyval) (k : string) (v : pyval)
    location feature_names store :
  k ∉ stat_keys →
  build_features_from_live (<[k := v]> A) B location feature_names
  = build_features_from_live A B location feature_names
  ∧ build_features_from_live A (<[k := v]> B) location feature_names
    = build_features_from_live A B location feature_names
  ∧ predict_logistic_from_artifacts (<[k := v]> A) B location store
    = predict_logistic_from_artifacts A B location store
  ∧ predict_logistic_from_artifacts A (<[k := v]> B) location store
    = predict_logistic_from_artifacts A B location store.
Proof.
  intros Hk.
  assert (∀ (d : gmap string pyval) k', k' ∈ stat_keys →
            _safe_get (<[k := v]> d) k' 0 = _safe_get d k' 0) as Hsame.
  { intros d k' Hk'. apply safe_get_insert_ne. intros ->. contradiction. }
  split_and!.
  - apply build_features_ext_on; auto.
  - apply build_features_ext_on; auto.
  - apply predict_ext. intros names. apply build_features_ext_on; auto.
  - apply predict_ext. intros names. apply build_features_ext_on; auto.
Qed.

(** ** The row mapper of the loader *)

Lemma coerce_float_shape x : _coerce_float x = PyNone ∨ ∃ v, _coerce_float x = PyFloat v.
Proof. unfold _coerce_float. destruct (py_float x); eauto. Qed.

Lemma percent_to_float_shape x :
  _percent_to_float x = PyNone ∨ ∃ v, _percent_to_float x = PyFloat v.
Proof.
  unfold _percent_to_float. destruct x as [v|n|s|]; cbn; eauto.
  destruct (float_of_str _); eauto.
Qed.

Lemma pick_shape row cols dflt pct :
  (dflt = PyNone ∨ ∃ v, dflt = PyFloat v) →
  pick row cols dflt pct = PyNone ∨ ∃ v, pick row cols dflt pct = PyFloat v.
Proof.
  intros Hd. induction cols as [|c cols IH]; [exact Hd|].
  cbn [pick]. destruct (row !! c) as [v|]; [|exact IH].
  destruct (notna v); [|exact IH].
  destruct pct; [apply percent_to_float_shape | apply coerce_float_shape].
Qed.

Lemma map_row_lookup_float row k v : _map_row row !! k = Some v → ∃ x, v = PyFloat x.
Proof.
  unfold _map_row. cbv zeta. rewrite lookup_fmap.
  match goal with |- context [?m !! k] =>
    assert (map_Forall (λ _ w, w = PyNone ∨ ∃ x, w = PyFloat x) m) as Hall
  end.
  { repeat case_match;
      repeat (apply map_Forall_insert_2; [apply pick_shape; eauto|]);
      apply map_Forall_empty. }
  match goal with |- context [?m !! k] => destruct (m !! k) as [w|] eqn:Hw end;
    cbn; [|discriminate].
  intros [= <-]. destruct (Hall k w Hw) as [->|[x ->]]; cbn; eauto.
Qed.

Lemma lookup_overwrite_if_is_Some (c : bool) (m : gmap string pyval) k0 v k :
  is_Some (m !! k0) →
  is_Some ((if c then <[k0 := v]> m else m) !! k) ↔ is_Some (m !! k).
Proof.
  intros H0. destruct c; [|reflexivity].
  rewrite lookup_insert_is_Some'. split; [intros [<-|H]; assumption | auto].
Qed.

Lemma picked_columns_lookup_is_Some (v1 v2 v3 v4 v5 v6 v7 v8 v9 v10 v11 v12 v13 v14 v15 : pyval)
    (k : string) :
  is_Some ((<["TOV_def" := v15]> (<["TOV_off" := v14]> (<["DR_def" := v13]>
            (<["OR_off" := v12]> (<["FT_def" := v11]> (<["FT_off" := v10]>
            (<["TwoP_def" := v9]> (<["TwoP_off" := v8]> (<["ThreeP_def" := v7]>
            (<["ThreeP_off" := v6]> (<["eFG_def" := v5]> (<["eFG_off" := v4]>
            (<["Tempo" := v3]> (<["AdjD" := v2]> (<["AdjO" := v1]>
            (∅ : gmap string pyval)))))))))))))))) !! k)
  ↔ k ∈ row_keys.
Proof.
  split.
  - rewrite !lookup_insert_is_Some', lookup_empty. intros H.
    repeat (destruct H as [<-|H]; [unfold row_keys; in_list|]).
    destruct H as [? [=]].
  - unfold row_keys. intros H.
    repeat (apply elem_of_cons in H as [->|H]; [vm_compute; eauto|]).
    by apply elem_of_nil in H.
Qed.

Lemma map_row_lookup_is_Some row k : is_Some (_map_row row !! k) ↔ k ∈ row_keys.
Proof.
  unfold _map_row. cbv zeta. rewrite lookup_fmap, fmap_is_Some.
  match goal with |- context [negb (notna (?m !!! "FT_off"))] => set (base := m) end.
  assert (∀ k', is_Some (base !! k') ↔ k' ∈ row_keys) as Hbase
    by (intros k'; apply picked_columns_lookup_is_Some).
  assert ("FT_off" ∈ row_keys ∧ "FT_def" ∈ row_keys) as [Ho Hd]
    by (split; unfold row_keys; in_list).
  rewrite lookup_overwrite_if_is_Some.
  - rewrite lookup_overwrite_if_is_Some; [apply Hbase | by apply Hbase].
  - rewrite lookup_overwrite_if_is_Some; by apply Hbase.
Qed.

Lemma map_row_AdjO row :
  _map_row row !! "AdjO"%string
  = Some (let p := pick row ["AdjO"; "AdjOE"; "Adj. Off"]%string (PyFloat 0) false in
          if notna p then p else PyFloat 0).
Proof.
  unfold _map_row. cbv zeta. generalize (pick row). intros pk.
  rewrite lookup_fmap.
  repeat match goal with |- context [if ?c then <[ _ := _ ]> _ else _] => destruct c end;
    reflexivity.
Qed.

Lemma map_row_FT_off row :
  _map_row row !! "FT_off"%string
  = Some (let ft := pick row ["FT%_O"; "FT_O"; "FT Off"]%string PyNone true in
          let ftr := pick row ["FTR_O"; "FTR Off"]%string PyNone true in
          let v := if negb (notna ft) && notna ftr then ftr else ft in
          if notna v then v else PyFloat 0).
Proof.
  unfold _map_row. cbv zeta. generalize (pick row). intros pk.
  rewrite lookup_fmap.
  set (ft := pk ["FT%_O"; "FT_O"; "FT Off"]%string PyNone true).
  set (ftr := pk ["FTR_O"; "FTR Off"]%string PyNone true).
  match goal with |- context [if ?c then <[ "FT_off"%string := _ ]> _ else _] =>
    change c with (negb (notna ft) && notna ftr)
  end.
  destruct (negb (notna ft) && notna ftr);
    match goal with |- context [if ?c then <[ _ := _ ]> _ else _] => destruct c end;
    reflexivity.
Qed.

Lemma pick_skips row pre cols dflt pct :
  Forall (λ c, row !! c = None ∨ row !! c = Some PyNone) pre →
  pick row (pre ++ cols) dflt pct = pick row cols dflt pct.
Proof.
  induction 1 as [|c pre [Hc|Hc] _ IH]; [reflexivity| |];
    cbn [app pick]; rewrite Hc; exact IH.
Qed.

Lemma map_row_FT_def row :
  _map_row row !! "FT_def"%string
  = Some (let ft := pick row ["FT%_D"; "FT_D"; "FT Def"]%string PyNone true in
          let ftr := pick row ["FTR_D"; "FTR Def"]%string PyNone true in
          let v := if negb (notna ft) && notna ftr then ftr else ft in
          if notna v then v else PyFloat 0).
Proof.
  unfold _map_row. cbv zeta. generalize (pick row). intros pk.
  rewrite lookup_fmap.
  set (ft := pk ["FT%_D"; "FT_D"; "FT Def"]%string PyNone true).
  set (ftr := pk ["FTR_D"; "FTR Def"]%string PyNone true).
  match goal with |- context [if ?c then <[ "FT_off"%string := _ ]> _ else _] =>
    destruct c
  end;
    match goal with |- context [if ?c then <[ "FT_def"%string := _ ]> _ else _] =>
      change c with (negb (notna ft) && notna ftr)
    end;
    destruct (negb (notna ft) && notna ftr); reflexivity.
Qed.

(** A key without fallback holds its picked value, or 0.0 for None. *)
Lemma map_row_plain row k cols dflt pct :
  (k, (cols, dflt, pct)) ∈ row_columns →
  k ≠ "FT_off"%string → k ≠ "FT_def"%string →
  _map_row row !! k
  = Some (let p := pick row cols dflt pct in if notna p then p else PyFloat 0).
Proof.
  intros Hin Ho Hd. unfold row_columns in Hin.
  repeat (apply elem_of_cons in Hin as [Heq|Hin];
          [injection Heq as -> -> -> ->; try congruence;
           unfold _map_row; cbv zeta; generalize (pick row); intros pk;
           rewrite lookup_fmap;
           repeat match goal with
                  | |- context [if ?c then <[ _ := _ ]> _ else _] => destruct c
                  end;
           reflexivity|]).
  by apply elem_of_nil in Hin.
Qed.

Lemma map_row_closed_form row k cols dflt pct :
  (k, (cols, dflt, pct)) ∈ row_columns →
  _map_row row !! k
  = Some (let p := pick row cols dflt pct in
          let r := pick row (rate_columns k) PyNone true in
          if notna p then p else if notna r then r else PyFloat 0).
Proof.
  intros Hin. cbv zeta.
  destruct (decide (k = "FT_off"%string)) as [->|Ho].
  - assert (cols = ["FT%_O"; "FT_O"; "FT Off"]%string ∧ dflt = PyNone ∧ pct = true)
      as (-> & -> & ->).
    { unfold row_columns in Hin.
      repeat (apply elem_of_cons in Hin as [Heq|Hin];
              [simplify_eq; done|]).
      by apply elem_of_nil in Hin. }
    rewrite map_row_FT_off. cbv zeta.
    change (rate_columns "FT_off") with ["FTR_O"; "FTR Off"]%string.
    set (ft := pick row ["FT%_O"; "FT_O"; "FT Off"]%string PyNone true).
    set (ftr := pick row ["FTR_O"; "FTR Off"]%string PyNone true).
    destruct (notna ft) eqn:E1, (notna ftr) eqn:E2; cbn [negb andb];
      rewrite ?E1, ?E2; reflexivity.
  - destruct (decide (k = "FT_def"%string)) as [->|Hd].
    + assert (cols = ["FT%_D"; "FT_D"; "FT Def"]%string ∧ dflt = PyNone ∧ pct = true)
        as (-> & -> & ->).
      { unfold row_columns in Hin.
        repeat (apply elem_of_cons in Hin as [Heq|Hin];
                [simplify_eq; done|]).
        by apply elem_of_nil in Hin. }
      rewrite map_row_FT_def. cbv zeta.
      change (rate_columns "FT_def") with ["FTR_D"; "FTR Def"]%string.
      set (ft := pick row ["FT%_D"; "FT_D"; "FT Def"]%string PyNone true).
      set (ftr := pick row ["FTR_D"; "FTR Def"]%string PyNone true).
      destruct (notna ft) eqn:E1, (notna ftr) eqn:E2; cbn [negb andb];
        rewrite ?E1, ?E2; reflexivity.
    + rewrite (map_row_plain row k cols dflt pct Hin Ho Hd). cbv zeta.
      unfold rate_columns. rewrite !decide_False by done. cbn [pick notna].
      destruct (notna (pick row cols dflt pct)); reflexivity.
Qed.

Lemma row_columns_default k cols dflt pct :
  (k, (cols, dflt, pct)) ∈ row_columns → dflt = PyFloat 0 ∨ dflt = PyNone.
Proof.
  intros Hin. unfold row_columns in Hin.
  repeat (apply elem_of_cons in Hin as [Heq|Hin]; [simplify_eq; eauto|]).
  by apply elem_of_nil in Hin.
Qed.

(** X11. [_map_row] returns a mapping with the same fifteen keys for every
    row, each bound to a float. The entry of a key is the value picked from
    its columns when that is a float, else the value picked from its
    fallback columns (the free-throw keys only) when that is a float, else
    0.0: a cell that is missing or does not convert ends as 0.0, never as
    None. *)
Theorem map_row_is_complete (row : gmap string pyval) (k : string) :
  (is_Some (_map_row row !! k) ↔ k ∈ row_keys)
  ∧ (∀ v, _map_row row !! k = Some v → ∃ x, v = PyFloat x)
  ∧ (∀ cols dflt pct, (k, (cols, dflt, pct)) ∈ row_columns →
       (let p := pick row cols dflt pct in
        let r := pick row (rate_columns k) PyNone true in
        _map_row row !! k
        = Some (if notna p then p else if notna r then r else PyFloat 0))
       ∧ (pick row cols dflt pct = PyNone →
          pick row (rate_columns k) PyNone true = PyNone →
          _map_row row !! k = Some (PyFloat 0))
       ∧ (Forall (λ c, row !! c = None ∨ row !! c = Some PyNone)
            (cols ++ rate_columns k) →
          _map_row row !! k = Some (PyFloat 0))).
Proof.
  split_and!; [apply map_row_lookup_is_Some | apply map_row_lookup_float |].
  intros cols dflt pct Hin.
  pose proof (map_row_closed_form row k cols dflt pct Hin) as Hform. cbv zeta in Hform.
  split_and!.
  - exact Hform.
  - intros Hp Hr. rewrite Hform, Hp, Hr. reflexivity.
  - intros Hmiss. apply Forall_app in Hmiss as [Hcols Hrate].
    assert (pick row cols dflt pct = dflt) as Hp.
    { rewrite <- (app_nil_r cols). rewrite (pick_skips row cols [] dflt pct Hcols).
      reflexivity. }
    assert (pick row (rate_columns k) PyNone true = PyNone) as Hr.
    { rewrite <- (app_nil_r (rate_columns k)).
      rewrite (pick_skips row (rate_columns k) [] PyNone true Hrate). reflexivity. }
    rewrite Hform, Hp, Hr.
    destruct (row_columns_default k cols dflt pct Hin) as [-> | ->]; reflexivity.
Qed.

(** X26. The diagnostic mapping returned with the probabilities is the
    whole derived feature set: it does not depend on the artifacts or on
    which names they require, and always has the 24 derived keys. *)
Theorem predict_returns_derived_set (teamA teamB : gmap string pyval) location store
    pA pB used (other_names : list string) :
  predict_logistic_from_artifacts teamA teamB location store = Some (pA, pB, used) →
  used = (build_features_from_live teamA teamB location other_names).2
  ∧ (∀ name, is_Some (used !! name) ↔ name ∈ derived_names).
Proof.
  intros Hp.
  destruct (load_logistic_artifacts store) as [[[[[names cv] b] mv] sv]|] eqn:Hload.
  - rewrite (predict_unfold _ _ _ _ _ _ _ _ _ Hload) in Hp. cbv zeta in Hp.
    assert (used = (build_features_from_live teamA teamB location names).2) as ->.
    { destruct (build_features_from_live teamA teamB location names) as [x u].
      cbn [fst snd] in Hp. destruct (score x mv sv cv b). by injection Hp as _ _ <-. }
    split.
    + rewrite !build_features_named. reflexivity.
    + intros name.
      rewrite build_features_named, list_to_map_is_Some, named_features_keys. reflexivity.
  - unfold predict_logistic_from_artifacts in Hp. rewrite Hload in Hp. discriminate.
Qed.

Lemma py_sum_zeros (l : list R) : Forall (λ t, t = 0) l → py_sum l = 0.
Proof.
  unfold py_sum. induction 1 as [|t l -> _ IH]; cbn; [reflexivity|].
  rewrite foldl_Rplus_acc, IH. lra.
Qed.

Lemma zero_terms (coef_vec x_std : list R) :
  Forall (λ c, c = 0) coef_vec →
  Forall (λ t, t = 0) ((λ '(c, v), c * v) <$> zip coef_vec x_std).
Proof.
  intros Hc. revert x_std. induction Hc as [|c l -> _ IH]; intros [|v x_std]; cbn;
    try apply Forall_nil_2.
  apply Forall_cons. split; [lra | apply IH].
Qed.

(** X27. With every coefficient 0.0 the scorer returns sigmoid(intercept)
    and its complement, whatever the raw vector, the means and the scales
    are. *)
Theorem zero_coefficients_give_baseline (x_raw mean_vec scale_vec coef_vec : list R)
    (intercept : R) :
  Forall (λ c, c = 0) coef_vec →
  score x_raw mean_vec scale_vec coef_vec intercept
  = (_sigmoid intercept, 1 - _sigmoid intercept).
Proof.
  intros Hc. unfold score, linear_model. cbv zeta.
  rewrite (py_sum_zeros _ (zero_terms coef_vec _ Hc)).
  replace (intercept + 0) with intercept by lra. reflexivity.
Qed.

Lemma diff_feature_lookup (A B : gmap string pyval) location feature_names feat key :
  (feat, key) ∈ diff_features →
  (build_features_from_live A B location feature_names).2 !! feat
  = Some (_safe_get A key 0 - _safe_get B key 0).
Proof.
  intros Hin. pose proof (named_diff_lookup A B location feature_names) as Hall.
  rewrite Forall_forall in Hall. apply (Hall (feat, key) Hin).
Qed.

Lemma map_row_lookup_None row k : k ∉ row_keys → _map_row row !! k = None.
Proof.
  intros Hk. apply eq_None_not_Some. by rewrite map_row_lookup_is_Some.
Qed.

Lemma safe_get_map_row_unfed row key :
  key ∉ row_keys → _safe_get (_map_row row) key 0 = 0.
Proof. intros Hk. apply safe_get_absent. by apply map_row_lookup_None. Qed.

(** X12. Teams produced by [_map_row] and fed to the feature builder: on
    each of the fifteen keys [_safe_get] returns the stored float, and the
    six features whose stat key [_map_row] never writes (three-point attempt
    rate on both ends, free-throw rate, assist, block and steal rate) are
    0.0 for every pair of rows. *)
Theorem loader_rows_feed_builder (rowA rowB : gmap string pyval) location feature_names :
  let A := _map_row rowA in
  let B := _map_row rowB in
  let used := (build_features_from_live A B location feature_names).2 in
  Forall (λ feat, used !! feat = Some 0) unfed_features
  ∧ (∀ k, k ∈ row_keys →
       ∃ a b, A !! k = Some (PyFloat a) ∧ B !! k = Some (PyFloat b)
              ∧ _safe_get A k 0 = a ∧ _safe_get B k 0 = b).
Proof.
  cbv zeta. split.
  - unfold unfed_features.
    repeat (apply Forall_cons; split;
            [erewrite diff_feature_lookup by in_list;
             rewrite !safe_get_map_row_unfed by (unfold row_keys; not_in_list);
             f_equal; lra|]).
    apply Forall_nil_2.
  - intros k Hk.
    destruct (proj2 (map_row_lookup_is_Some rowA k) Hk) as [va Ha].
    destruct (proj2 (map_row_lookup_is_Some rowB k) Hk) as [vb Hb].
    destruct (map_row_lookup_float rowA k va Ha) as [a ->].
    destruct (map_row_lookup_float rowB k vb Hb) as [b ->].
    exists a, b. split_and!; auto.
    + unfold _safe_get. rewrite Ha. reflexivity.
    + unfold _safe_get. rewrite Hb. reflexivity.
Qed.

(** X13. [pick] returns the conversion of the first alias whose cell is
    present and not missing, and looks no further even when that conversion
    fails; with no such alias it returns the default. So an offensive rating
    that is present but does not convert ends as 0.0 in [_map_row], whatever
    the later aliases hold. *)
Theorem pick_first_usable_alias (row : gmap string pyval) (pre post : list string)
    (c : string) (v dflt : pyval) (pct : bool) :
  Forall (λ c', row !! c' = None ∨ row !! c' = Some PyNone) pre →
  (row !! c = Some v → notna v = true →
   pick row (pre ++ c :: post) dflt pct
   = if pct then _percent_to_float v else _coerce_float v)
  ∧ pick row pre dflt pct = dflt
  ∧ (row !! "AdjO"%string = Some v → notna v = true → py_float v = None →
     _map_row row !! "AdjO"%string = Some (PyFloat 0)).
Proof.
  intros Hpre. split_and!.
  - intros Hc Hv. rewrite (pick_skips row pre (c :: post) dflt pct Hpre).
    cbn [pick]. rewrite Hc, Hv. reflexivity.
  - rewrite <- (app_nil_r pre) at 1. rewrite (pick_skips row pre [] dflt pct Hpre).
    reflexivity.
  - intros Hc Hv Hf. rewrite map_row_AdjO. cbv zeta. cbn [pick].
    rewrite Hc, Hv. unfold _coerce_float. rewrite Hf. reflexivity.
Qed.

(** X14. The free-throw percentage falls back to the free-throw rate:
    when the free-throw aliases give a float it is used and the rate columns
    are ignored; when they give nothing, whether absent or not convertible,
    the value picked from the rate columns is stored under FT_off, and 0.0
    when that gives nothing either. *)
Theorem free_throw_falls_back_to_rate (row : gmap string pyval) :
  let ft := pick row ["FT%_O"; "FT_O"; "FT Off"]%string PyNone true in
  let ftr := pick row ["FTR_O"; "FTR Off"]%string PyNone true in
  (∀ y, ft = PyFloat y → _map_row row !! "FT_off"%string = Some (PyFloat y))
  ∧ (∀ x, ft = PyNone → ftr = PyFloat x →
       _map_row row !! "FT_off"%string = Some (PyFloat x))
  ∧ (ft = PyNone → ftr = PyNone → _map_row row !! "FT_off"%string = Some (PyFloat 0))
  ∧ (∀ v x, Forall (λ c, row !! c = None ∨ row !! c = Some PyNone)
              ["FT%_O"; "FT_O"; "FT Off"]%string →
       row !! "FTR_O"%string = Some v → _percent_to_float v = PyFloat x →
       _map_row row !! "FT_off"%string = Some (PyFloat x)).
Proof.
  cbv zeta. split_and!.
  - intros y Hft. rewrite map_row_FT_off. cbv zeta. rewrite Hft. reflexivity.
  - intros x Hft Hftr. rewrite map_row_FT_off. cbv zeta. rewrite Hft, Hftr. reflexivity.
  - intros Hft Hftr. rewrite map_row_FT_off. cbv zeta. rewrite Hft, Hftr. reflexivity.
  - intros v x Hna Hv Hx. rewrite map_row_FT_off. cbv zeta.
    assert (pick row ["FT%_O"; "FT_O"; "FT Off"]%string PyNone true = PyNone) as ->.
    { rewrite <- (app_nil_r [_; _; _]). rewrite (pick_skips row _ [] PyNone true Hna).
      reflexivity. }
    assert (pick row ["FTR_O"; "FTR Off"]%string PyNone true = PyFloat x) as ->.
    { cbn [pick]. rewrite Hv. destruct v; cbn [notna]; try exact Hx.
      cbn in Hx. discriminate. }
    reflexivity.
Qed.

(** X15. [_percent_to_float] on a number keeps it up to 1.5 and divides it
    by 100 above; a string is always divided by 100. On numbers it is
    therefore not monotone (a larger input just above 1.5 gives a smaller
    output), it maps [0, 150] into [0, 1.5], and the same fraction read as
    text and as a number gives two different results. *)
Theorem percent_to_float_heuristic (v w : R) (s : string) :
  _percent_to_float (PyFloat v)
  = PyFloat (if decide (v > 15 / 10) then v / 100 else v)
  ∧ (0 <= v <= 150 →
     ∃ r, _percent_to_float (PyFloat v) = PyFloat r ∧ 0 <= r <= 15 / 10)
  ∧ (0 < v <= 15 / 10 → 15 / 10 < w < 100 * v →
     ∃ r r', _percent_to_float (PyFloat v) = PyFloat r
             ∧ _percent_to_float (PyFloat w) = PyFloat r' ∧ r' < r)
  ∧ (float_of_str
       (let xs := PyStr.strip s in
        if PyStr.endswith_percent xs then PyStr.drop_last xs else xs) = Some v →
     _percent_to_float (PyStr s) = PyFloat (v / 100)
     ∧ (0 < v <= 15 / 10 → _percent_to_float (PyStr s) ≠ _percent_to_float (PyFloat v))).
Proof.
  split_and!.
  - reflexivity.
  - intros Hv. eexists. split; [reflexivity|]. case_decide; lra.
  - intros Hv Hw. do 2 eexists. split_and!; [reflexivity | reflexivity |].
    rewrite (decide_False (P := v > 15 / 10)) by lra.
    rewrite (decide_True (P := w > 15 / 10)) by lra. lra.
  - intros Hs. cbv zeta in Hs.
    assert (_percent_to_float (PyStr s) = PyFloat (v / 100)) as Hstr.
    { unfold _percent_to_float. cbv zeta. rewrite Hs. reflexivity. }
    split; [exact Hstr|]. intros Hv. rewrite Hstr. cbn.
    rewrite (decide_False (P := v > 15 / 10)) by lra.
    intros [= Heq]. lra.
Qed.

End Predictor.

(** ** Properties of the adjustors *)

Lemma bind_Ok {A B : Type} (m : M A) (k : A → M B) h a h' :
  m h = (Ok a, h') → (m ≫= k) h = k a h'.
Proof. intros Hm. unfold mbind, M_bind. rewrite Hm. reflexivity. Qed.

Lemma bind_Raise {A B : Type} (m : M A) (k : A → M B) h e h' :
  m h = (Raise e, h') → (m ≫= k) h = (Raise e, h').
Proof. intros Hm. unfold mbind, M_bind. rewrite Hm. reflexivity. Qed.

Lemma read_only_bind {A B : Type} (m : M A) (k : A → M B) :
  read_only m → (∀ a, read_only (k a)) → read_only (m ≫= k).
Proof.
  intros Hm Hk h. unfold mbind, M_bind. specialize (Hm h).
  destruct (m h) as [[a|e] h']; cbn in Hm; subst h'; [apply Hk | reflexivity].
Qed.

Lemma read_only_ret {A : Type} (a : A) : read_only (mret a).
Proof. intros h. reflexivity. Qed.

Lemma read_only_raise {A : Type} (e : exn) : read_only (raise e : M A).
Proof. intros h. reflexivity. Qed.

Lemma read_only_lift {A : Type} (o : outcome A) : read_only (lift o).
Proof. intros h. reflexivity. Qed.

Lemma read_only_get d k dflt : read_only (get d k dflt).
Proof. intros h. reflexivity. Qed.

Lemma read_only_getitem d k : read_only (getitem d k).
Proof. intros h. unfold getitem. destruct (_ !! k); reflexivity. Qed.

Lemma apply_experience_bonus_read_only teamA teamB win_prob_A win_prob_B :
  read_only (apply_experience_bonus teamA teamB win_prob_A win_prob_B).
Proof.
  unfold apply_experience_bonus.
  repeat first
    [ apply read_only_bind; [|intros ?]
    | apply read_only_get | apply read_only_lift | apply read_only_ret
    | apply read_only_raise
    | case_decide ].
Qed.

Lemma imul_Ok d k c h (dd : gmap string pyval) v w :
  h !! d = Some dd → dd !! k = Some v → py_mul_float v c = Ok w →
  imul d k c h = (Ok tt, <[d := <[k := w]> dd]> h).
Proof.
  intros Hd Hk Hw. unfold imul.
  assert (getitem d k h = (Ok v, h)) as Hget.
  { unfold getitem. rewrite (lookup_total_correct _ _ _ Hd), Hk. reflexivity. }
  rewrite (bind_Ok _ _ _ _ _ Hget).
  assert (lift (py_mul_float v c) h = (Ok w, h)) as Hlift by (unfold lift; by rewrite Hw).
  rewrite (bind_Ok _ _ _ _ _ Hlift).
  unfold setitem. rewrite (lookup_total_correct _ _ _ Hd). reflexivity.
Qed.

(** The four in-place products of one branch of [apply_home_court], on two
    distinct dictionaries. *)
Lemma rescale_both (a b : nat) (cAo cAd cBo cBd : R) h (dA dB : gmap string pyval)
    vAo vAd vBo vBd wAo wAd wBo wBd :
  a ≠ b →
  h !! a = Some dA → h !! b = Some dB →
  dA !! "AdjO"%string = Some vAo → dA !! "AdjD"%string = Some vAd →
  dB !! "AdjO"%string = Some vBo → dB !! "AdjD"%string = Some vBd →
  py_mul_float vAo cAo = Ok wAo → py_mul_float vAd cAd = Ok wAd →
  py_mul_float vBo cBo = Ok wBo → py_mul_float vBd cBd = Ok wBd →
  (imul a "AdjO" cAo;; imul a "AdjD" cAd;; imul b "AdjO" cBo;; imul b "AdjD" cBd) h
  = (Ok tt,
     <[b := <["AdjD"%string := wBd]> (<["AdjO"%string := wBo]> dB)]>
       (<[a := <["AdjD"%string := wAd]> (<["AdjO"%string := wAo]> dA)]> h)).
Proof.
  intros Hab Ha Hb HAo HAd HBo HBd H1 H2 H3 H4.
  rewrite (bind_Ok _ _ _ _ _ (imul_Ok a "AdjO" cAo h dA vAo wAo Ha HAo H1)).
  erewrite bind_Ok; cycle 1.
  { apply (imul_Ok a "AdjD" cAd _ (<["AdjO"%string := wAo]> dA) vAd wAd);
      [apply lookup_insert_eq | by rewrite lookup_insert_ne | exact H2]. }
  rewrite insert_insert_eq.
  erewrite bind_Ok; cycle 1.
  { apply (imul_Ok b "AdjO" cBo _ dB vBo wBo);
      [by rewrite lookup_insert_ne | exact HBo | exact H3]. }
  erewrite (imul_Ok b "AdjD" cBd _ (<["AdjO"%string := wBo]> dB) vBd wBd);
    [|apply lookup_insert_eq | by rewrite lookup_insert_ne | exact H4].
  rewrite insert_insert_eq. reflexivity.
Qed.

Lemma apply_home_court_neutral a b location h :
  PyStr.lower location ≠ "home"%string → PyStr.lower location ≠ "away"%string →
  apply_home_court a b location h = (Ok tt, h).
Proof.
  intros H1 H2. unfold apply_home_court. cbv zeta.
  rewrite !decide_False by done. reflexivity.
Qed.

Lemma read_only_writes_only {A : Type} (d : nat) (m : M A) : read_only m → writes_only d m.
Proof. intros Hm h r _. by rewrite Hm. Qed.

Lemma writes_only_bind {A B : Type} (d : nat) (m : M A) (k : A → M B) :
  writes_only d m → (∀ a, writes_only d (k a)) → writes_only d (m ≫= k).
Proof.
  intros Hm Hk h r Hr. unfold mbind, M_bind. specialize (Hm h r Hr).
  destruct (m h) as [[a|e] h']; cbn in Hm; [|exact Hm].
  rewrite <- Hm. by apply Hk.
Qed.

Lemma writes_only_setitem d k v : writes_only d (setitem d k v).
Proof. intros h r Hr. unfold setitem. cbn. by rewrite lookup_insert_ne. Qed.

Lemma adjust_for_upset_trends_writes_only teamA teamB win_probs round_name :
  writes_only win_probs (adjust_for_upset_trends teamA teamB win_probs round_name).
Proof.
  unfold adjust_for_upset_trends.
  repeat first
    [ apply writes_only_setitem
    | apply read_only_writes_only;
      first [ apply read_only_get | apply read_only_getitem | apply read_only_lift
            | apply read_only_ret ]
    | apply writes_only_bind; [|intros ?]
    | match goal with
      | |- writes_only _ (if ?b then _ else _) => destruct b
      | |- writes_only _ (match ?o with Some _ => _ | None => _ end) => destruct o
      | |- writes_only _ (let '(_, _) := ?x in _) => destruct x
      end ].
Qed.

Lemma getitem_cases d k h :
  (∃ v, (h !!! d : gmap string pyval) !! k = Some v ∧ getitem d k h = (Ok v, h))
  ∨ getitem d k h = (Raise KeyError, h).
Proof. unfold getitem. destruct (_ !! k) as [v|]; eauto. Qed.

(** Without an applicable upset rate nothing is written. *)
Lemma adjust_for_upset_trends_no_upset teamA teamB win_probs round_name h seedA seedB :
  get teamA "Seed" (PyInt 0) h = (Ok seedA, h) →
  get teamB "Seed" (PyInt 0) h = (Ok seedB, h) →
  py_truthy seedA && py_truthy seedB
    && bool_decide (PyStr.lower round_name ∈ tournament_rounds) = false
  ∨ (upset_rate_of (seedA, seedB) = None ∧ upset_rate_of (seedB, seedA) = None) →
  (adjust_for_upset_trends teamA teamB win_probs round_name h).2 = h.
Proof.
  intros HsA HsB Hcond. unfold adjust_for_upset_trends.
  rewrite (bind_Ok _ _ _ _ _ HsA), (bind_Ok _ _ _ _ _ HsB).
  destruct (py_truthy seedA && py_truthy seedB && _) eqn:Hc; [|reflexivity].
  destruct Hcond as [?|[H1 H2]]; [congruence|].
  destruct (py_gt seedA seedB) as [above|e] eqn:Hgt.
  2:{ erewrite bind_Raise; [reflexivity|]. unfold lift. reflexivity. }
  erewrite bind_Ok; [|unfold lift; reflexivity].
  destruct (getitem_cases teamA "name" h) as [(nA & _ & HnA)|HnA],
           (getitem_cases teamB "name" h) as [(nB & _ & HnB)|HnB], above.
  all: unfold mbind, M_bind, mret, M_ret; cbn beta iota;
    repeat (first [rewrite HnA | rewrite HnB]; cbn beta iota);
    rewrite ?H1, ?H2; reflexivity.
Qed.

(** With team A the underdog of a listed pair, the caller's mapping is
    overwritten at both names and returned. *)
Lemma adjust_for_upset_trends_applies teamA teamB win_probs round_name h
    seedA seedB nameA nameB upset_rate new rest :
  get teamA "Seed" (PyInt 0) h = (Ok seedA, h) →
  get teamB "Seed" (PyInt 0) h = (Ok seedB, h) →
  py_truthy seedA && py_truthy seedB
    && bool_decide (PyStr.lower round_name ∈ tournament_rounds) = true →
  py_gt seedA seedB = Ok true →
  getitem teamA "name" h = (Ok (PyStr nameA), h) →
  getitem teamB "name" h = (Ok (PyStr nameB), h) →
  upset_rate_of (seedA, seedB) = Some upset_rate →
  py_max_float (default (PyInt 0) ((h !!! win_probs : gmap string pyval) !! nameA))
    upset_rate = Ok new →
  py_one_minus new = Ok rest →
  adjust_for_upset_trends teamA teamB win_probs round_name h
  = (Ok win_probs,
     <[win_probs := <[nameB := rest]> (<[nameA := new]> (h !!! win_probs))]> h).
Proof.
  intros HsA HsB Hc Hgt HnA HnB Hrate Hnew Hrest. unfold adjust_for_upset_trends.
  rewrite (bind_Ok _ _ _ _ _ HsA), (bind_Ok _ _ _ _ _ HsB), Hc, Hgt.
  erewrite bind_Ok; [|unfold lift; reflexivity].
  cbn beta iota.
  erewrite (bind_Ok (mbind _ _)); cycle 1.
  { rewrite (bind_Ok _ _ _ _ _ HnA), (bind_Ok _ _ _ _ _ HnB). reflexivity. }
  cbn beta iota. rewrite Hrate.
  erewrite bind_Ok; [|unfold lift, as_key; reflexivity].
  erewrite bind_Ok; [|unfold get; reflexivity].
  rewrite Hnew.
  erewrite bind_Ok; [|unfold lift; reflexivity].
  erewrite bind_Ok; [|unfold setitem; reflexivity].
  erewrite bind_Ok; cycle 1.
  { unfold getitem. rewrite lookup_total_insert_eq, lookup_insert_eq. reflexivity. }
  rewrite Hrest.
  erewrite bind_Ok; [|unfold lift; reflexivity].
  erewrite bind_Ok; [|unfold lift, as_key; reflexivity].
  erewrite bind_Ok; [|unfold setitem; reflexivity].
  rewrite lookup_total_insert_eq, insert_insert_eq. reflexivity.
Qed.

(** With team B the underdog: the comparison fails and the names are read
    in the other order. *)
Lemma adjust_for_upset_trends_applies_else teamA teamB win_probs round_name h
    seedA seedB nameA nameB upset_rate new rest :
  get teamA "Seed" (PyInt 0) h = (Ok seedA, h) →
  get teamB "Seed" (PyInt 0) h = (Ok seedB, h) →
  py_truthy seedA && py_truthy seedB
    && bool_decide (PyStr.lower round_name ∈ tournament_rounds) = true →
  py_gt seedA seedB = Ok false →
  getitem teamA "name" h = (Ok (PyStr nameA), h) →
  getitem teamB "name" h = (Ok (PyStr nameB), h) →
  upset_rate_of (seedB, seedA) = Some upset_rate →
  py_max_float (default (PyInt 0) ((h !!! win_probs : gmap string pyval) !! nameB))
    upset_rate = Ok new →
  py_one_minus new = Ok rest →
  adjust_for_upset_trends teamA teamB win_probs round_name h
  = (Ok win_probs,
     <[win_probs := <[nameA := rest]> (<[nameB := new]> (h !!! win_probs))]> h).
Proof.
  intros HsA HsB Hc Hgt HnA HnB Hrate Hnew Hrest. unfold adjust_for_upset_trends.
  rewrite (bind_Ok _ _ _ _ _ HsA), (bind_Ok _ _ _ _ _ HsB), Hc, Hgt.
  erewrite bind_Ok; [|unfold lift; reflexivity].
  cbn beta iota.
  erewrite (bind_Ok (mbind _ _)); cycle 1.
  { rewrite (bind_Ok _ _ _ _ _ HnB), (bind_Ok _ _ _ _ _ HnA). reflexivity. }
  cbn beta iota. rewrite Hrate.
  erewrite bind_Ok; [|unfold lift, as_key; reflexivity].
  erewrite bind_Ok; [|unfold get; reflexivity].
  rewrite Hnew.
  erewrite bind_Ok; [|unfold lift; reflexivity].
  erewrite bind_Ok; [|unfold setitem; reflexivity].
  erewrite bind_Ok; cycle 1.
  { unfold getitem. rewrite lookup_total_insert_eq, lookup_insert_eq. reflexivity. }
  rewrite Hrest.
  erewrite bind_Ok; [|unfold lift; reflexivity].
  erewrite bind_Ok; [|unfold lift, as_key; reflexivity].
  erewrite bind_Ok; [|unfold setitem; reflexivity].
  rewrite lookup_total_insert_eq, insert_insert_eq. reflexivity.
Qed.

(** C9, as the code has it. [apply_experience_bonus] writes nothing.
    [apply_home_court] leaves both mappings as they are for a location that
    is neither "home" nor "away" in any letter case, and for those two it
    overwrites AdjO and AdjD of both mappings with the rescaled values.
    [adjust_for_upset_trends] never writes the team mappings; it leaves the
    probability mapping as it is unless both seeds are truthy, the round is
    a tournament round and the seed pair is listed, and then it overwrites
    the caller's mapping at both names and returns that same mapping: the
    underdog, whichever argument it is (team A when its seed is the larger,
    team B otherwise), gets the larger of its previous probability and the
    historical rate, and the favourite the complement. *)
Theorem adjustors_effects (h : gmap nat (gmap string pyval)) :
  (∀ teamA teamB win_prob_A win_prob_B,
     (apply_experience_bonus teamA teamB win_prob_A win_prob_B h).2 = h)
  ∧ (∀ a b location,
       PyStr.lower location ≠ "home"%string → PyStr.lower location ≠ "away"%string →
       apply_home_court a b location h = (Ok tt, h))
  ∧ (∀ a b location (dA dB : gmap string pyval) vAo vAd vBo vBd wAo wAd wBo wBd,
       a ≠ b → h !! a = Some dA → h !! b = Some dB →
       dA !! "AdjO"%string = Some vAo → dA !! "AdjD"%string = Some vAd →
       dB !! "AdjO"%string = Some vBo → dB !! "AdjD"%string = Some vBd →
       PyStr.lower location = "home"%string →
       py_mul_float vAo (1 + HOME_COURT_ADV) = Ok wAo →
       py_mul_float vAd (1 - HOME_COURT_ADV) = Ok wAd →
       py_mul_float vBo (1 - HOME_COURT_ADV) = Ok wBo →
       py_mul_float vBd (1 + HOME_COURT_ADV) = Ok wBd →
       apply_home_court a b location h
       = (Ok tt,
          <[b := <["AdjD"%string := wBd]> (<["AdjO"%string := wBo]> dB)]>
            (<[a := <["AdjD"%string := wAd]> (<["AdjO"%string := wAo]> dA)]> h)))
  ∧ (∀ a b location (dA dB : gmap string pyval) vAo vAd vBo vBd wAo wAd wBo wBd,
       a ≠ b → h !! a = Some dA → h !! b = Some dB →
       dA !! "AdjO"%string = Some vAo → dA !! "AdjD"%string = Some vAd →
       dB !! "AdjO"%string = Some vBo → dB !! "AdjD"%string = Some vBd →
       PyStr.lower location = "away"%string →
       py_mul_float vAo (1 - HOME_COURT_ADV) = Ok wAo →
       py_mul_float vAd (1 + HOME_COURT_ADV) = Ok wAd →
       py_mul_float vBo (1 + HOME_COURT_ADV) = Ok wBo →
       py_mul_float vBd (1 - HOME_COURT_ADV) = Ok wBd →
       apply_home_court a b location h
       = (Ok tt,
          <[b := <["AdjD"%string := wBd]> (<["AdjO"%string := wBo]> dB)]>
            (<[a := <["AdjD"%string := wAd]> (<["AdjO"%string := wAo]> dA)]> h)))
  ∧ (∀ teamA teamB win_probs round_name r,
       r ≠ win_probs →
       (adjust_for_upset_trends teamA teamB win_probs round_name h).2 !! r = h !! r)
  ∧ (∀ teamA teamB win_probs round_name seedA seedB,
       get teamA "Seed" (PyInt 0) h = (Ok seedA, h) →
       get teamB "Seed" (PyInt 0) h = (Ok seedB, h) →
       py_truthy seedA && py_truthy seedB
         && bool_decide (PyStr.lower round_name ∈ tournament_rounds) = false
       ∨ (upset_rate_of (seedA, seedB) = None ∧ upset_rate_of (seedB, seedA) = None) →
       (adjust_for_upset_trends teamA teamB win_probs round_name h).2 = h)
  ∧ (∀ teamA teamB win_probs round_name seedA seedB nameA nameB upset_rate new rest,
       get teamA "Seed" (PyInt 0) h = (Ok seedA, h) →
       get teamB "Seed" (PyInt 0) h = (Ok seedB, h) →
       py_truthy seedA && py_truthy seedB
         && bool_decide (PyStr.lower round_name ∈ tournament_rounds) = true →
       py_gt seedA seedB = Ok true →
       getitem teamA "name" h = (Ok (PyStr nameA), h) →
       getitem teamB "name" h = (Ok (PyStr nameB), h) →
       upset_rate_of (seedA, seedB) = Some upset_rate →
       py_max_float (default (PyInt 0) ((h !!! win_probs : gmap string pyval) !! nameA))
         upset_rate = Ok new →
       py_one_minus new = Ok rest →
       adjust_for_upset_trends teamA teamB win_probs round_name h
       = (Ok win_probs,
          <[win_probs := <[nameB := rest]> (<[nameA := new]> (h !!! win_probs))]> h))
  ∧ (∀ teamA teamB win_probs round_name seedA seedB nameA nameB upset_rate new rest,
       get teamA "Seed" (PyInt 0) h = (Ok seedA, h) →
       get teamB "Seed" (PyInt 0) h = (Ok seedB, h) →
       py_truthy seedA && py_truthy seedB
         && bool_decide (PyStr.lower round_name ∈ tournament_rounds) = true →
       py_gt seedA seedB = Ok false →
       getitem teamA "name" h = (Ok (PyStr nameA), h) →
       getitem teamB "name" h = (Ok (PyStr nameB), h) →
       upset_rate_of (seedB, seedA) = Some upset_rate →
       py_max_float (default (PyInt 0) ((h !!! win_probs : gmap string pyval) !! nameB))
         upset_rate = Ok new →
       py_one_minus new = Ok rest →
       adjust_for_upset_trends teamA teamB win_probs round_name h
       = (Ok win_probs,
          <[win_probs := <[nameA := rest]> (<[nameB := new]> (h !!! win_probs))]> h)).
Proof.
  split_and!.
  - intros. apply apply_experience_bonus_read_only.
  - intros. by apply apply_home_court_neutral.
  - intros a b location dA dB vAo vAd vBo vBd wAo wAd wBo wBd
      Hab Ha Hb HAo HAd HBo HBd Hloc H1 H2 H3 H4.
    unfold apply_home_court. cbv zeta. rewrite decide_True by exact Hloc.
    by eapply rescale_both.
  - intros a b location dA dB vAo vAd vBo vBd wAo wAd wBo wBd
      Hab Ha Hb HAo HAd HBo HBd Hloc H1 H2 H3 H4.
    unfold apply_home_court. cbv zeta.
    rewrite decide_False by (rewrite Hloc; discriminate).
    rewrite decide_True by exact Hloc.
    by eapply rescale_both.
  - intros. by apply adjust_for_upset_trends_writes_only.
  - intros. by eapply adjust_for_upset_trends_no_upset.
  - intros. by eapply adjust_for_upset_trends_applies.
  - intros. by eapply adjust_for_upset_trends_applies_else.
Qed.

(** ** Further properties of the adjustors *)

(** The value [apply_experience_bonus] computes from two numeric
    experiences. *)
Lemma apply_experience_bonus_eval teamA teamB win_prob_A win_prob_B h a b :
  py_num (default (PyInt 0) ((h !!! teamA : gmap string pyval) !! "Experience"%string))
  = Ok a →
  py_num (default (PyInt 0) ((h !!! teamB : gmap string pyval) !! "Experience"%string))
  = Ok b →
  apply_experience_bonus teamA teamB win_prob_A win_prob_B h
  = (if decide (Rabs (a - b) >= EXPERIENCE_THRESHOLD) then
       if decide (a > b) then
         if decide (win_prob_A + EXPERIENCE_BONUS + win_prob_B = 0)
         then Raise ZeroDivisionError
         else Ok ((win_prob_A + EXPERIENCE_BONUS)
                    / (win_prob_A + EXPERIENCE_BONUS + win_prob_B),
                  win_prob_B / (win_prob_A + EXPERIENCE_BONUS + win_prob_B))
       else
         if decide (win_prob_A + (win_prob_B + EXPERIENCE_BONUS) = 0)
         then Raise ZeroDivisionError
         else Ok (win_prob_A / (win_prob_A + (win_prob_B + EXPERIENCE_BONUS)),
                  (win_prob_B + EXPERIENCE_BONUS)
                    / (win_prob_A + (win_prob_B + EXPERIENCE_BONUS)))
     else Ok (win_prob_A, win_prob_B), h).
Proof.
  intros Ha Hb. unfold apply_experience_bonus.
  erewrite bind_Ok; [|reflexivity].
  erewrite bind_Ok; [|reflexivity].
  erewrite bind_Ok; [|unfold lift; rewrite Ha; reflexivity].
  erewrite bind_Ok; [|unfold lift; rewrite Hb; reflexivity].
  repeat case_decide; reflexivity.
Qed.


Lemma py_num_Raise v e : py_num v = Raise e → e = TypeError.
Proof. destruct v; cbn; congruence. Qed.

Lemma apply_experience_bonus_type_error teamA teamB win_prob_A win_prob_B h :
  (∃ e, py_num (default (PyInt 0)
                  ((h !!! teamA : gmap string pyval) !! "Experience"%string)) = Raise e)
  ∨ (∃ e, py_num (default (PyInt 0)
                    ((h !!! teamB : gmap string pyval) !! "Experience"%string)) = Raise e) →
  apply_experience_bonus teamA teamB win_prob_A win_prob_B h = (Raise TypeError, h).
Proof.
  intros Hbad. unfold apply_experience_bonus.
  erewrite bind_Ok; [|reflexivity].
  erewrite bind_Ok; [|reflexivity].
  destruct (py_num (default (PyInt 0) ((h !!! teamA : gmap string pyval)
                                         !! "Experience"%string))) as [a|e] eqn:Ha.
  - erewrite bind_Ok; [|unfold lift; rewrite ?Ha; reflexivity].
    destruct Hbad as [[e He]|[e He]]; [discriminate|].
    erewrite bind_Raise; [|unfold lift; rewrite He; reflexivity].
    by rewrite (py_num_Raise _ _ He).
  - erewrite bind_Raise; [|unfold lift; rewrite ?Ha; reflexivity].
    by rewrite (py_num_Raise _ _ Ha).
Qed.

(** X17. [apply_experience_bonus] does not depend on which team is passed
    first: with the teams and the probabilities exchanged it returns the
    exchanged pair, raises when the original call raises, and like it
    writes nothing. *)
Theorem experience_bonus_symmetric teamA teamB win_prob_A win_prob_B h :
  apply_experience_bonus teamB teamA win_prob_B win_prob_A h
  = (match (apply_experience_bonus teamA teamB win_prob_A win_prob_B h).1 with
     | Ok (qa, qb) => Ok (qb, qa)
     | Raise e => Raise e
     end, h).
Proof.
  destruct (py_num (default (PyInt 0) ((h !!! teamA : gmap string pyval)
                                         !! "Experience"%string))) as [a|ea] eqn:Ha;
  destruct (py_num (default (PyInt 0) ((h !!! teamB : gmap string pyval)
                                         !! "Experience"%string))) as [b|eb] eqn:Hb.
  2-4: rewrite !apply_experience_bonus_type_error by eauto; reflexivity.
  rewrite (apply_experience_bonus_eval teamA teamB win_prob_A win_prob_B h a b Ha Hb).
  rewrite (apply_experience_bonus_eval teamB teamA win_prob_B win_prob_A h b a Hb Ha).
  unfold EXPERIENCE_THRESHOLD, EXPERIENCE_BONUS.
  rewrite (Rabs_minus_sym b a).
  destruct (decide (Rabs (a - b) >= 1)) as [Hgap|Hgap]; [|reflexivity].
  assert (a > b ∨ b > a) as [Hab|Hab].
  { destruct (Rtotal_order a b) as [?|[->|?]]; [right; lra| |left; lra].
    rewrite Rminus_diag, Rabs_R0 in Hgap. lra. }
  - rewrite (decide_True (P := a > b)) by lra. rewrite (decide_False (P := b > a)) by lra.
    replace (win_prob_B + (win_prob_A + 2 / 100)) with (win_prob_A + 2 / 100 + win_prob_B)
      by lra.
    case_decide; reflexivity.
  - rewrite (decide_False (P := a > b)) by lra. rewrite (decide_True (P := b > a)) by lra.
    replace (win_prob_B + 2 / 100 + win_prob_A) with (win_prob_A + (win_prob_B + 2 / 100))
      by lra.
    case_decide; reflexivity.
Qed.

(** X18. [apply_experience_bonus] raises in two cases only: [TypeError]
    when the experience of either team is not a number, and
    [ZeroDivisionError] when the bonus applies and the total after the bonus
    is 0; with numeric experiences it raises exactly in the second case. *)
Theorem experience_bonus_errors teamA teamB win_prob_A win_prob_B h :
  let expA := default (PyInt 0)
                ((h !!! teamA : gmap string pyval) !! "Experience"%string) in
  let expB := default (PyInt 0)
                ((h !!! teamB : gmap string pyval) !! "Experience"%string) in
  ((∃ e, py_num expA = Raise e) ∨ (∃ e, py_num expB = Raise e) →
   apply_experience_bonus teamA teamB win_prob_A win_prob_B h = (Raise TypeError, h))
  ∧ (∀ a b, py_num expA = Ok a → py_num expB = Ok b →
       ((∃ e, (apply_experience_bonus teamA teamB win_prob_A win_prob_B h).1 = Raise e)
        ↔ Rabs (a - b) >= 1 ∧ win_prob_A + win_prob_B + 2 / 100 = 0)
       ∧ (∀ e, (apply_experience_bonus teamA teamB win_prob_A win_prob_B h).1 = Raise e →
            e = ZeroDivisionError)).
Proof.
  cbv zeta. split.
  - apply apply_experience_bonus_type_error.
  - intros a b Ha Hb.
    rewrite (apply_experience_bonus_eval teamA teamB win_prob_A win_prob_B h a b Ha Hb).
    unfold EXPERIENCE_THRESHOLD, EXPERIENCE_BONUS. cbn [fst].
    split; [split|].
    + intros [e He]. repeat case_decide; try discriminate; split; auto; lra.
    + intros [Hgap Hsum]. rewrite decide_True by exact Hgap.
      case_decide; rewrite decide_True by lra; eauto.
    + intros e. repeat case_decide; congruence.
Qed.

Lemma touches_only_ret {A : Type} ds ks (a : A) : touches_only ds ks (mret a).
Proof. intros h. split; reflexivity. Qed.

Lemma touches_only_bind {A B : Type} ds ks (m : M A) (k : A → M B) :
  touches_only ds ks m → (∀ a, touches_only ds ks (k a)) → touches_only ds ks (m ≫= k).
Proof.
  intros Hm Hk h. unfold mbind, M_bind. destruct (Hm h) as [Hm1 Hm2].
  destruct (m h) as [[a|e] h']; cbn [snd] in Hm1, Hm2; [|split; assumption].
  destruct (Hk a h') as [Hk1 Hk2]. split.
  - intros r Hr. rewrite (Hk1 r Hr). by apply Hm1.
  - intros r key Hkey. rewrite (Hk2 r key Hkey). by apply Hm2.
Qed.

Lemma touches_only_imul ds ks d k c :
  d ∈ ds → k ∈ ks → touches_only ds ks (imul d k c).
Proof.
  intros Hd Hk h. unfold imul, mbind, M_bind, getitem, lift, setitem.
  destruct ((h !!! d : gmap string pyval) !! k) as [v|]; [|split; reflexivity].
  destruct (py_mul_float v c) as [w|e]; [|split; reflexivity].
  cbn [snd]. split.
  - intros r Hr. apply lookup_insert_ne. intros ->. contradiction.
  - intros r key Hkey. destruct (decide (r = d)) as [->|Hne].
    + rewrite lookup_total_insert_eq. apply lookup_insert_ne. intros ->. contradiction.
    + rewrite lookup_total_insert_ne by done. reflexivity.
Qed.

(** X19. Whatever its arguments and however it ends, [apply_home_court]
    writes to no dictionary other than its two team mappings and to no key
    other than AdjO and AdjD. *)
Theorem home_court_frame (a b : nat) (location : string)
    (h : gmap nat (gmap string pyval)) :
  (∀ r, r ≠ a → r ≠ b → (apply_home_court a b location h).2 !! r = h !! r)
  ∧ (∀ r k, k ≠ "AdjO"%string → k ≠ "AdjD"%string →
       ((apply_home_court a b location h).2 !!! r : gmap string pyval) !! k
       = (h !!! r : gmap string pyval) !! k).
Proof.
  assert (touches_only [a; b] ["AdjO"; "AdjD"]%string (apply_home_court a b location))
    as Htouch.
  { unfold apply_home_court. cbv zeta.
    repeat case_decide;
      repeat first
        [ apply touches_only_ret
        | apply touches_only_imul; [in_list | in_list]
        | apply touches_only_bind; [|intros ?] ]. }
  destruct (Htouch h) as [H1 H2]. split.
  - intros r Ha Hb. apply H1. rewrite !elem_of_cons, elem_of_nil. tauto.
  - intros r k Ho Hd. apply H2. rewrite !elem_of_cons, elem_of_nil. tauto.
Qed.

Lemma imul_KeyError d k c h :
  (h !!! d : gmap string pyval) !! k = None → imul d k c h = (Raise KeyError, h).
Proof.
  intros Hk. unfold imul. erewrite bind_Raise; [reflexivity|].
  unfold getitem. rewrite Hk. reflexivity.
Qed.

(** X20. [apply_home_court] is not atomic. At "home", when the first team
    has no AdjO the call raises [KeyError] with nothing written; when the
    first team rescales and the second team has no AdjO, it raises
    [KeyError] with the first team already rescaled. *)
Theorem home_court_partial_failure (a b : nat) (location : string)
    (h : gmap nat (gmap string pyval)) :
  PyStr.lower location = "home"%string →
  ((h !!! a : gmap string pyval) !! "AdjO"%string = None →
   apply_home_court a b location h = (Raise KeyError, h))
  ∧ (∀ (dA : gmap string pyval) vAo vAd wAo wAd,
       a ≠ b → h !! a = Some dA →
       dA !! "AdjO"%string = Some vAo → dA !! "AdjD"%string = Some vAd →
       py_mul_float vAo (1 + HOME_COURT_ADV) = Ok wAo →
       py_mul_float vAd (1 - HOME_COURT_ADV) = Ok wAd →
       (h !!! b : gmap string pyval) !! "AdjO"%string = None →
       apply_home_court a b location h
       = (Raise KeyError,
          <[a := <["AdjD"%string := wAd]> (<["AdjO"%string := wAo]> dA)]> h)).
Proof.
  intros Hloc. unfold apply_home_court. cbv zeta. rewrite decide_True by exact Hloc.
  split.
  - intros Hmiss. erewrite bind_Raise; [reflexivity|]. by apply imul_KeyError.
  - intros dA vAo vAd wAo wAd Hab Ha HAo HAd H1 H2 Hmiss.
    rewrite (bind_Ok _ _ _ _ _ (imul_Ok a "AdjO" _ h dA vAo wAo Ha HAo H1)).
    erewrite bind_Ok; cycle 1.
    { apply (imul_Ok a "AdjD" _ _ (<["AdjO"%string := wAo]> dA) vAd wAd);
        [apply lookup_insert_eq | by rewrite lookup_insert_ne | exact H2]. }
    rewrite insert_insert_eq.
    erewrite bind_Raise; [reflexivity|].
    apply imul_KeyError. rewrite lookup_total_insert_ne by done. exact Hmiss.
Qed.

(** X21. Home for the first team is away for the second: when the call at
    "home" on (A, B) succeeds on two distinct mappings, the call at "away"
    on (B, A) leaves exactly the same store. *)
Theorem home_is_away_mirrored (a b : nat) (home away : string)
    (h : gmap nat (gmap string pyval)) (dA dB : gmap string pyval)
    vAo vAd vBo vBd wAo wAd wBo wBd :
  a ≠ b → h !! a = Some dA → h !! b = Some dB →
  dA !! "AdjO"%string = Some vAo → dA !! "AdjD"%string = Some vAd →
  dB !! "AdjO"%string = Some vBo → dB !! "AdjD"%string = Some vBd →
  PyStr.lower home = "home"%string → PyStr.lower away = "away"%string →
  py_mul_float vAo (1 + HOME_COURT_ADV) = Ok wAo →
  py_mul_float vAd (1 - HOME_COURT_ADV) = Ok wAd →
  py_mul_float vBo (1 - HOME_COURT_ADV) = Ok wBo →
  py_mul_float vBd (1 + HOME_COURT_ADV) = Ok wBd →
  apply_home_court b a away h = apply_home_court a b home h.
Proof.
  intros Hab Ha Hb HAo HAd HBo HBd Hhome Haway H1 H2 H3 H4.
  unfold apply_home_court. cbv zeta.
  rewrite (decide_False (P := PyStr.lower away = "home"%string))
    by (rewrite Haway; discriminate).
  rewrite (decide_True (P := PyStr.lower away = "away"%string)) by exact Haway.
  rewrite (decide_True (P := PyStr.lower home = "home"%string)) by exact Hhome.
  rewrite (rescale_both a b _ _ _ _ h dA dB vAo vAd vBo vBd wAo wAd wBo wBd)
    by assumption.
  rewrite (rescale_both b a _ _ _ _ h dB dA vBo vBd vAo vAd wBo wBd wAo wAd)
    by (assumption || congruence).
  rewrite (insert_insert_ne _ a b) by done. reflexivity.
Qed.

(** X22. The two adjustments do not undo each other: after "home" and then
    "away" on the same two distinct mappings, every rating has been
    multiplied by (1 + 0.014) (1 - 0.014), so a non-zero rating is not back
    at its value. *)
Theorem home_then_away_does_not_restore (a b : nat) (home away : string)
    (h : gmap nat (gmap string pyval)) (dA dB : gmap string pyval) (oA tA oB tB : R) :
  a ≠ b → h !! a = Some dA → h !! b = Some dB →
  dA !! "AdjO"%string = Some (PyFloat oA) → dA !! "AdjD"%string = Some (PyFloat tA) →
  dB !! "AdjO"%string = Some (PyFloat oB) → dB !! "AdjD"%string = Some (PyFloat tB) →
  PyStr.lower home = "home"%string → PyStr.lower away = "away"%string →
  let h2 := (apply_home_court a b away (apply_home_court a b home h).2).2 in
  let c := HOME_COURT_ADV in
  (h2 !!! a : gmap string pyval) !! "AdjO"%string = Some (PyFloat (oA * (1 + c) * (1 - c)))
  ∧ (h2 !!! a : gmap string pyval) !! "AdjD"%string
    = Some (PyFloat (tA * (1 - c) * (1 + c)))
  ∧ (h2 !!! b : gmap string pyval) !! "AdjO"%string
    = Some (PyFloat (oB * (1 - c) * (1 + c)))
  ∧ (h2 !!! b : gmap string pyval) !! "AdjD"%string
    = Some (PyFloat (tB * (1 + c) * (1 - c)))
  ∧ (oA ≠ 0 → (h2 !!! a : gmap string pyval) !! "AdjO"%string ≠ dA !! "AdjO"%string).
Proof.
  intros Hab Ha Hb HAo HAd HBo HBd Hhome Haway. cbv zeta.
  assert (b ≠ a) as Hba by congruence.
  set (c := HOME_COURT_ADV).
  set (A1 := <["AdjD"%string := PyFloat (tA * (1 - c))]>
               (<["AdjO"%string := PyFloat (oA * (1 + c))]> dA)).
  set (B1 := <["AdjD"%string := PyFloat (tB * (1 + c))]>
               (<["AdjO"%string := PyFloat (oB * (1 - c))]> dB)).
  set (h1 := <[b := B1]> (<[a := A1]> h)).
  assert (apply_home_court a b home h = (Ok tt, h1)) as E1.
  { unfold apply_home_court. cbv zeta. rewrite decide_True by exact Hhome.
    apply (rescale_both a b _ _ _ _ h dA dB (PyFloat oA) (PyFloat tA) (PyFloat oB)
             (PyFloat tB)); (assumption || reflexivity). }
  rewrite E1. cbn [snd].
  set (A2 := <["AdjD"%string := PyFloat (tA * (1 - c) * (1 + c))]>
               (<["AdjO"%string := PyFloat (oA * (1 + c) * (1 - c))]> A1)).
  set (B2 := <["AdjD"%string := PyFloat (tB * (1 + c) * (1 - c))]>
               (<["AdjO"%string := PyFloat (oB * (1 - c) * (1 + c))]> B1)).
  assert (∀ (m : gmap string pyval) x y,
            (<["AdjD"%string := x]> (<["AdjO"%string := y]> m)) !! "AdjO"%string = Some y)
    as HO by (intros; rewrite lookup_insert_ne by done; apply lookup_insert_eq).
  assert (apply_home_court a b away h1 = (Ok tt, <[b := B2]> (<[a := A2]> h1))) as E2.
  { unfold apply_home_court. cbv zeta.
    rewrite (decide_False (P := PyStr.lower away = "home"%string))
      by (rewrite Haway; discriminate).
    rewrite (decide_True (P := PyStr.lower away = "away"%string)) by exact Haway.
    apply (rescale_both a b _ _ _ _ h1 A1 B1 (PyFloat (oA * (1 + c)))
             (PyFloat (tA * (1 - c))) (PyFloat (oB * (1 - c))) (PyFloat (tB * (1 + c))));
      try reflexivity; try exact Hab.
    - unfold h1. rewrite lookup_insert_ne by done. apply lookup_insert_eq.
    - apply lookup_insert_eq.
    - apply HO.
    - apply lookup_insert_eq.
    - apply HO.
    - apply lookup_insert_eq. }
  rewrite E2. cbn [snd].
  rewrite (lookup_total_insert_ne _ b a) by done.
  rewrite !lookup_total_insert_eq.
  split_and!.
  - apply HO.
  - apply lookup_insert_eq.
  - apply HO.
  - apply lookup_insert_eq.
  - intros HoA. unfold A2. rewrite HO, HAo. intros [= Heq].
    unfold c, HOME_COURT_ADV in Heq. nra.
Qed.

Lemma py_max_float_num v x c :
  py_num v = Ok x →
  ∃ new, py_max_float v c = Ok new ∧ py_num new = Ok (Rmax x c).
Proof.
  intros Hv. unfold py_max_float. rewrite Hv.
  destruct (decide (c > x)) as [Hc|Hc]; eexists; (split; [reflexivity|]).
  - cbn. rewrite Rmax_right by lra. reflexivity.
  - rewrite Hv, Rmax_left by lra. reflexivity.
Qed.

Lemma py_one_minus_num v x :
  py_num v = Ok x → ∃ rest, py_one_minus v = Ok rest ∧ py_num rest = Ok (1 - x).
Proof.
  destruct v as [y|n|s|]; cbn; intros [= <-]; eexists; (split; [reflexivity|]); cbn.
  - reflexivity.
  - rewrite minus_IZR. reflexivity.
Qed.

(** X23. When the upset adjustment applies with team A the underdog, the
    caller's mapping ends with the underdog at the larger of its previous
    probability and the historical rate, and the favourite at the
    complement: the underdog is never lowered, is at least the rate, the two
    entries sum to 1, and no other entry changes. *)
Theorem upset_adjustment_result teamA teamB win_probs round_name h
    seedA seedB nameA nameB upset_rate x :
  get teamA "Seed" (PyInt 0) h = (Ok seedA, h) →
  get teamB "Seed" (PyInt 0) h = (Ok seedB, h) →
  py_truthy seedA && py_truthy seedB
    && bool_decide (PyStr.lower round_name ∈ tournament_rounds) = true →
  py_gt seedA seedB = Ok true →
  getitem teamA "name" h = (Ok (PyStr nameA), h) →
  getitem teamB "name" h = (Ok (PyStr nameB), h) →
  upset_rate_of (seedA, seedB) = Some upset_rate →
  py_num (default (PyInt 0) ((h !!! win_probs : gmap string pyval) !! nameA)) = Ok x →
  nameA ≠ nameB →
  ∃ new rest h',
    adjust_for_upset_trends teamA teamB win_probs round_name h = (Ok win_probs, h')
    ∧ (h' !!! win_probs : gmap string pyval) !! nameA = Some new
    ∧ (h' !!! win_probs : gmap string pyval) !! nameB = Some rest
    ∧ py_num new = Ok (Rmax x upset_rate)
    ∧ py_num rest = Ok (1 - Rmax x upset_rate)
    ∧ x <= Rmax x upset_rate ∧ upset_rate <= Rmax x upset_rate
    ∧ (∀ k, k ≠ nameA → k ≠ nameB →
         (h' !!! win_probs : gmap string pyval) !! k
         = (h !!! win_probs : gmap string pyval) !! k).
Proof.
  intros HsA HsB Hc Hgt HnA HnB Hrate Hx Hne.
  destruct (py_max_float_num _ x upset_rate Hx) as (new & Hnew & Hnum).
  destruct (py_one_minus_num new _ Hnum) as (rest & Hrest & Hrnum).
  exists new, rest. eexists. split.
  { by eapply adjust_for_upset_trends_applies. }
  rewrite lookup_total_insert_eq. split_and!.
  - rewrite lookup_insert_ne by done. apply lookup_insert_eq.
  - apply lookup_insert_eq.
  - exact Hnum.
  - exact Hrnum.
  - apply Rmax_l.
  - apply Rmax_r.
  - intros k HkA HkB. by rewrite !lookup_insert_ne.
Qed.

(** X24. The upset adjustment is idempotent: applied a second time to the
    store it has produced, with the probability mapping a different object
    from the two teams, it returns the same mapping and changes nothing. *)
Theorem upset_adjustment_idempotent teamA teamB win_probs round_name h
    seedA seedB nameA nameB upset_rate x :
  get teamA "Seed" (PyInt 0) h = (Ok seedA, h) →
  get teamB "Seed" (PyInt 0) h = (Ok seedB, h) →
  py_truthy seedA && py_truthy seedB
    && bool_decide (PyStr.lower round_name ∈ tournament_rounds) = true →
  py_gt seedA seedB = Ok true →
  getitem teamA "name" h = (Ok (PyStr nameA), h) →
  getitem teamB "name" h = (Ok (PyStr nameB), h) →
  upset_rate_of (seedA, seedB) = Some upset_rate →
  py_num (default (PyInt 0) ((h !!! win_probs : gmap string pyval) !! nameA)) = Ok x →
  nameA ≠ nameB → win_probs ≠ teamA → win_probs ≠ teamB →
  let h' := (adjust_for_upset_trends teamA teamB win_probs round_name h).2 in
  adjust_for_upset_trends teamA teamB win_probs round_name h' = (Ok win_probs, h').
Proof.
  intros HsA HsB Hc Hgt HnA HnB Hrate Hx Hne HwA HwB. cbv zeta.
  destruct (py_max_float_num _ x upset_rate Hx) as (new & Hnew & Hnum).
  destruct (py_one_minus_num new _ Hnum) as (rest & Hrest & Hrnum).
  rewrite (adjust_for_upset_trends_applies teamA teamB win_probs round_name h
             seedA seedB nameA nameB upset_rate new rest) by assumption.
  cbn [snd].
  set (D := <[nameB := rest]> (<[nameA := new]> (h !!! win_probs : gmap string pyval))).
  set (h' := <[win_probs := D]> h).
  assert (h' !!! win_probs = D) as HD by apply lookup_total_insert_eq.
  assert (D !! nameA = Some new) as HDA
    by (unfold D; rewrite lookup_insert_ne by done; apply lookup_insert_eq).
  assert (D !! nameB = Some rest) as HDB by apply lookup_insert_eq.
  assert (py_max_float new upset_rate = Ok new) as Hnew'.
  { unfold py_max_float. rewrite Hnum. rewrite decide_False; [reflexivity|].
    pose proof (Rmax_r x upset_rate). lra. }
  rewrite (adjust_for_upset_trends_applies teamA teamB win_probs round_name h'
             seedA seedB nameA nameB upset_rate new rest); try assumption.
  - rewrite HD. f_equal. unfold h'.
    rewrite (insert_id D nameA new HDA), (insert_id D nameB rest HDB).
    apply insert_insert_eq.
  - unfold get in *. injection HsA as <-. unfold h'.
    rewrite lookup_total_insert_ne by done. reflexivity.
  - unfold get in *. injection HsB as <-. unfold h'.
    rewrite lookup_total_insert_ne by done. reflexivity.
  - unfold getitem in *. unfold h'. rewrite lookup_total_insert_ne by done.
    destruct ((h !!! teamA : gmap string pyval) !! "name"%string); congruence.
  - unfold getitem in *. unfold h'. rewrite lookup_total_insert_ne by done.
    destruct ((h !!! teamB : gmap string pyval) !! "name"%string); congruence.
  - rewrite HD, HDA. exact Hnew'.
Qed.

Lemma string_ltb_asym s t : String.ltb t s = true → String.ltb s t = false.
Proof.
  unfold String.ltb. rewrite (String.compare_antisym s t).
  destruct (String.compare t s); cbn; congruence.
Qed.

Lemma py_gt_asym v w : py_gt v w = Ok true → py_gt w v = Ok false.
Proof.
  destruct v as [x|n|s|], w as [y|m|t|]; cbn; try discriminate;
    intros [= H]; f_equal;
    first [ by apply string_ltb_asym
          | apply bool_decide_eq_true_1 in H; apply bool_decide_eq_false_2; lra ].
Qed.

(** X25. The upset adjustment does not depend on which team is passed
    first: when it applies with team A the underdog, the call with the two
    teams exchanged returns the same mapping and leaves the same store. *)
Theorem upset_adjustment_order_independent teamA teamB win_probs round_name h
    seedA seedB nameA nameB upset_rate x :
  get teamA "Seed" (PyInt 0) h = (Ok seedA, h) →
  get teamB "Seed" (PyInt 0) h = (Ok seedB, h) →
  py_truthy seedA && py_truthy seedB
    && bool_decide (PyStr.lower round_name ∈ tournament_rounds) = true →
  py_gt seedA seedB = Ok true →
  getitem teamA "name" h = (Ok (PyStr nameA), h) →
  getitem teamB "name" h = (Ok (PyStr nameB), h) →
  upset_rate_of (seedA, seedB) = Some upset_rate →
  py_num (default (PyInt 0) ((h !!! win_probs : gmap string pyval) !! nameA)) = Ok x →
  adjust_for_upset_trends teamB teamA win_probs round_name h
  = adjust_for_upset_trends teamA teamB win_probs round_name h.
Proof.
  intros HsA HsB Hc Hgt HnA HnB Hrate Hx.
  destruct (py_max_float_num _ x upset_rate Hx) as (new & Hnew & Hnum).
  destruct (py_one_minus_num new _ Hnum) as (rest & Hrest & Hrnum).
  rewrite (adjust_for_upset_trends_applies teamA teamB win_probs round_name h
             seedA seedB nameA nameB upset_rate new rest) by assumption.
  apply (adjust_for_upset_trends_applies_else teamB teamA win_probs round_name h
           seedB seedA nameB nameA upset_rate new rest); try assumption.
  - rewrite <- Hc. destruct (py_truthy seedA), (py_truthy seedB); reflexivity.
  - by apply py_gt_asym.
Qed.

(** ** Closed instances *)

Example strip_then_lower : PyStr.lower (PyStr.strip "  Home	 ") = "home"%string.
Proof. reflexivity. Qed.

Example strip_keeps_inner_space : PyStr.strip " a b " = "a b"%string.
Proof. reflexivity. Qed.

Example upset_rate_of_float_seeds :
  upset_rate_of (PyFloat 11, PyInt 6) = Some (40 / 100)
  ∧ upset_rate_of (PyInt 6, PyInt 11) = None.
Proof.
  split; [|reflexivity].
  unfold upset_rate_of, HISTORICAL_UPSETS, py_eq_int. cbn.
  rewrite (bool_decide_eq_false_2 (11 = 12)) by lra.
  rewrite (bool_decide_eq_true_2 (11 = 11)) by lra. reflexivity.
Qed.

Example experience_bonus_example :
  apply_experience_bonus 0 1 (1 / 2) (1 / 2)
    {[ 0%nat := {[ "Experience"%string := PyFloat 3 ]}; 1%nat := ∅ ]}
  = (Ok ((1 / 2 + 2 / 100) / (1 / 2 + 2 / 100 + 1 / 2),
         1 / 2 / (1 / 2 + 2 / 100 + 1 / 2)),
     {[ 0%nat := {[ "Experience"%string := PyFloat 3 ]}; 1%nat := ∅ ]}).
Proof.
  unfold apply_experience_bonus, EXPERIENCE_THRESHOLD, EXPERIENCE_BONUS.
  erewrite bind_Ok; [|reflexivity].
  erewrite bind_Ok; [|reflexivity].
  erewrite bind_Ok; [|reflexivity].
  erewrite bind_Ok; [|reflexivity].
  assert (Rabs (3 - 0) >= 1) as Habs.
  { rewrite Rabs_pos_eq; lra. }
  rewrite decide_True by exact Habs.
  rewrite decide_True by lra. cbv zeta.
  rewrite decide_False by lra. reflexivity.
Qed.

Lemma adjustors_effects_witness :
  apply_home_court 0 1 "Neutral" example_heap = (Ok tt, example_heap)
  ∧ (apply_home_court 0 1 "HOME" example_heap).1 = Ok tt
  ∧ (adjust_for_upset_trends 0 1 2 "round1" example_heap).2 !! 0%nat
    = example_heap !! 0%nat
  ∧ (adjust_for_upset_trends 0 1 2 "regular" example_heap).2 = example_heap
  ∧ (adjust_for_upset_trends 0 1 2 "Round1" example_heap).1 = Ok 2%nat
  ∧ adjust_for_upset_trends 1 0 2 "Round1" example_heap
    = (Ok 2%nat,
       <[2%nat := <["Miami"%string := PyFloat (1 - 35 / 100)]>
                    (<["Drake"%string := PyFloat (35 / 100)]> (example_heap !!! 2%nat))]>
         example_heap).
Proof.
  destruct (adjustors_effects example_heap)
    as (_ & Hneutral & Hhome & _ & Hframe & Hsame & Hupset & Helse).
  split_and!.
  - apply Hneutral; discriminate.
  - erewrite (Hhome 0%nat 1%nat "HOME"%string); try reflexivity. lia.
  - apply Hframe. lia.
  - apply (Hsame 0%nat 1%nat 2%nat "regular"%string (PyInt 12) (PyInt 5));
      [reflexivity | reflexivity | left; reflexivity].
  - erewrite (Hupset 0%nat 1%nat 2%nat "Round1"%string (PyInt 12) (PyInt 5)
                "Drake"%string "Miami"%string (35 / 100)
                (PyFloat (35 / 100)) (PyFloat (1 - 35 / 100))); try reflexivity.
    + unfold py_gt. cbn. rewrite bool_decide_eq_true_2 by lra. reflexivity.
    + change (py_max_float (PyFloat (2 / 10)) (35 / 100) = Ok (PyFloat (35 / 100))).
      unfold py_max_float. cbn. rewrite decide_True by lra. reflexivity.
  - apply (Helse 1%nat 0%nat 2%nat "Round1"%string (PyInt 5) (PyInt 12)
             "Miami"%string "Drake"%string (35 / 100)); try reflexivity.
    + unfold py_gt. cbn. rewrite bool_decide_eq_false_2 by lra. reflexivity.
    + change (py_max_float (PyFloat (2 / 10)) (35 / 100) = Ok (PyFloat (35 / 100))).
      unfold py_max_float. cbn. rewrite decide_True by lra. reflexivity.
Defined.

(** Counterexample to the stated form of C9: at "home" [apply_home_court] replaces the offensive
    rating 100.0 of its first argument by 101.4, and in a first-round 12
    against 5 game [adjust_for_upset_trends] raises the underdog's entry of
    the caller's mapping from 0.2 to 0.35. *)
Lemma adjustors_mutate_counterexample :
  (example_heap !!! 0%nat : gmap string pyval) !! "AdjO"%string = Some (PyFloat 100)
  ∧ ((apply_home_court 0 1 "home" example_heap).2 !!! 0%nat : gmap string pyval)
      !! "AdjO"%string = Some (PyFloat (100 * (1 + HOME_COURT_ADV)))
  ∧ (apply_home_court 0 1 "home" example_heap).2 ≠ example_heap
  ∧ (example_heap !!! 2%nat : gmap string pyval) !! "Drake"%string
    = Some (PyFloat (2 / 10))
  ∧ ((adjust_for_upset_trends 0 1 2 "round1" example_heap).2 !!! 2%nat
       : gmap string pyval) !! "Drake"%string = Some (PyFloat (35 / 100))
  ∧ (adjust_for_upset_trends 0 1 2 "round1" example_heap).2 ≠ example_heap.
Proof.
  assert ((example_heap !!! 0%nat : gmap string pyval) !! "AdjO"%string
          = Some (PyFloat 100)) as H0 by reflexivity.
  assert ((example_heap !!! 2%nat : gmap string pyval) !! "Drake"%string
          = Some (PyFloat (2 / 10))) as H2 by reflexivity.
  assert (((apply_home_court 0 1 "home" example_heap).2 !!! 0%nat : gmap string pyval)
            !! "AdjO"%string = Some (PyFloat (100 * (1 + HOME_COURT_ADV)))) as Hcourt.
  { unfold apply_home_court. cbv zeta. rewrite decide_True by reflexivity.
    erewrite (rescale_both 0 1 _ _ _ _ example_heap); try reflexivity; [|lia].
    cbn [snd]. rewrite lookup_total_insert_ne by lia.
    rewrite lookup_total_insert_eq. reflexivity. }
  assert (((adjust_for_upset_trends 0 1 2 "round1" example_heap).2 !!! 2%nat
             : gmap string pyval) !! "Drake"%string = Some (PyFloat (35 / 100))) as Hupset.
  { erewrite (adjust_for_upset_trends_applies 0 1 2 "round1" example_heap
                (PyInt 12) (PyInt 5) "Drake" "Miami" (35 / 100)
                (PyFloat (35 / 100)) (PyFloat (1 - 35 / 100))); try reflexivity.
    - unfold py_gt. cbn. rewrite bool_decide_eq_true_2 by lra. reflexivity.
    - change (py_max_float (PyFloat (2 / 10)) (35 / 100) = Ok (PyFloat (35 / 100))).
      unfold py_max_float. cbn. rewrite decide_True by lra. reflexivity. }
  split_and!; auto.
  - intros Heq. rewrite Heq, H0 in Hcourt. injection Hcourt as Hc.
    unfold HOME_COURT_ADV in Hc. lra.
  - intros Heq. rewrite Heq, H2 in Hupset. injection Hupset as Hu. lra.
Qed.

Ltac each_name H :=
  repeat (apply elem_of_cons in H as [->|H]);
  [.. | by apply elem_of_nil in H]; eexists; reflexivity.

Lemma load_artifacts_aligned_witness :
  ∃ coef_vec intercept mean_vec scale_vec,
    load_logistic_artifacts float_rejects_str sparse_artifacts
    = Some (["OffRating_diff"; "Poss_diff"]%string, coef_vec, intercept, mean_vec, scale_vec)
    ∧ coef_vec !! 1%nat = Some 0
    ∧ scale_vec !! 1%nat = Some 1
    ∧ score [3; 70] mean_vec scale_vec coef_vec intercept
      = score [3; 4] mean_vec scale_vec coef_vec intercept.
Proof.
  destruct (load_artifacts_aligned float_rejects_str sparse_artifacts
              {| meta_feature_names := Some ["OffRating_diff"; "Poss_diff"]%string;
                 meta_intercept := None |}
              {[ "OffRating_diff"%string := PyFloat 2 ]} ∅ ∅
              ["OffRating_diff"; "Poss_diff"]%string)
    as (cv & b & mv & sv & Hload & _ & _ & _ & _ & Hc0 & _ & Hs1 & Hscore);
    try reflexivity.
  - eexists; reflexivity.
  - intros f Hf. each_name Hf.
  - intros f Hf. each_name Hf.
  - intros f Hf. each_name Hf.
  - exists cv, b, mv, sv. split_and!.
    + exact Hload.
    + apply (Hc0 1%nat "Poss_diff"%string); reflexivity.
    + apply (Hs1 1%nat "Poss_diff"%string); reflexivity.
    + apply (Hscore 1%nat "Poss_diff"%string [3; 4] 70); reflexivity.
Defined.

Lemma score_lengths_contract_witness :
  length (build_features_from_live float_rejects_str example_teamA example_teamB
            (Some "home"%string) ["home_advantage"; "OffRating_diff"]%string).1
  = 2%nat
  ∧ is_Some (predict_logistic_from_artifacts float_rejects_str example_teamA
               example_teamB (Some "home"%string) example_artifacts).
Proof.
  destruct (proj2 (score_lengths_contract float_rejects_str)
              example_teamA example_teamB (Some "home"%string) example_artifacts
              ["home_advantage"; "OffRating_diff"]%string [1; 0] 0 [0; 0] [1; 1]
              eq_refl)
    as (Hx & _ & _ & _ & Hp).
  split; [exact Hx | exact Hp].
Defined.

(** Counterexample to the stated form of C7: with a raw vector of length 2 against parameter
    vectors of length 1 the stage raises nothing; it returns the pair
    computed from the first entry alone. *)
Lemma score_mismatch_counterexample :
  length [1; 2] ≠ length [1]
  ∧ score [1; 2] [0] [1] [1] 0 = score [1] [0] [1] [1] 0
  ∧ score [1; 2] [0] [1] [1] 0 = (_sigmoid 1, 1 - _sigmoid 1).
Proof.
  split_and!.
  - cbn. lia.
  - reflexivity.
  - unfold score, linear_model, standardize, py_sum. cbn.
    rewrite decide_False by lra.
    replace (0 + (0 + 1 * ((1 - 0) / 1))) with 1 by lra. reflexivity.
Qed.

Lemma unconvertible_stat_is_absent_witness :
  _safe_get float_rejects_str unparsed_team "AdjO" 0 = 0
  ∧ predict_logistic_from_artifacts float_rejects_str
      unparsed_team example_teamB (Some "home"%string) example_artifacts
    = predict_logistic_from_artifacts float_rejects_str
        (delete "AdjO"%string unparsed_team) example_teamB
        (Some "home"%string) example_artifacts.
Proof.
  destruct (unconvertible_stat_is_absent float_rejects_str
              unparsed_team example_teamB "AdjO" (PyStr "n/a")
              (Some "home"%string) [] example_artifacts eq_refl eq_refl)
    as (H0 & _ & _ & _ & Hp & _).
  split; [exact H0 | exact Hp].
Defined.

Lemma home_advantage_value_spec_witness :
  _home_advantage_value (Some "  Home "%string) = 1
  ∧ _home_advantage_value (Some "hOmE"%string) = _home_advantage_value (Some "home"%string).
Proof.
  destruct (home_advantage_value_spec (Some "  Home "%string)) as (H1 & _).
  destruct (home_advantage_value_spec (Some "home"%string))
    as (_ & _ & _ & Hcase & _).
  split.
  - apply H1. reflexivity.
  - apply (Hcase "home"%string "hOmE"%string); reflexivity.
Defined.

(** Counterexample to the stated form of C8: " home " is neither "home" nor "away" in any
    letter case, yet its value is 1.0, not 0.0. *)
Lemma home_advantage_untrimmed_counterexample :
  PyStr.lower " home " ≠ "home"%string
  ∧ PyStr.lower " home " ≠ "away"%string
  ∧ _home_advantage_value (Some " home "%string) = 1
  ∧ _home_advantage_value (Some " home "%string) ≠ 0.
Proof.
  split_and!; try discriminate.
  - reflexivity.
  - replace (_home_advantage_value (Some " home "%string)) with 1 by reflexivity. lra.
Qed.

Ltac not_interaction :=
  unfold interaction_features; rewrite !elem_of_cons, elem_of_nil;
  intros [?|[?|[]]]; discriminate.

Lemma swap_symmetry_witness :
  ∃ pA pB used used',
    predict_logistic_from_artifacts float_rejects_str example_teamA example_teamB
      (Some "home"%string) symmetric_artifacts = Some (pA, pB, used)
    ∧ predict_logistic_from_artifacts float_rejects_str example_teamB example_teamA
        (Some "away"%string) symmetric_artifacts = Some (pB, pA, used').
Proof.
  assert (_home_advantage_value (Some "away"%string)
          = - _home_advantage_value (Some "home"%string)) as Hh.
  { replace (_home_advantage_value (Some "away"%string)) with (-1) by reflexivity.
    replace (_home_advantage_value (Some "home"%string)) with 1 by reflexivity.
    lra. }
  destruct (swap_symmetry float_rejects_str example_teamA example_teamB
              (Some "home"%string) (Some "away"%string) symmetric_artifacts
              ["home_advantage"; "OffRating_diff"]%string [1; 2] 0 [0; 0] [1; 5]
              Hh eq_refl)
    as (_ & _ & Hp).
  destruct Hp as (pA & pB & H1 & H2).
  - reflexivity.
  - intros [|[|i]] name c m s Hn Hc Hm Hs; cbn in Hn, Hc, Hm, Hs; try discriminate.
    + injection Hn as <-. injection Hm as <-. right. right.
      split; [reflexivity | not_interaction].
    + injection Hn as <-. injection Hm as <-. right. right.
      split; [reflexivity | not_interaction].
  - eexists pA, pB, _, _. split; [exact H1 | exact H2].
Defined.

(** Counterexample to the stated form of C1, in three parts. With a model of the interaction
    term home_x_offrat alone, the exchanged call at "away" sees the same
    feature value 10.0 and returns the same probability for its first team,
    not the complement. With a model that is its intercept, both calls
    return sigmoid(1.0) for their first team. With a mean of 1.0 on
    OffRating_diff, the original call scores 0.0 and the exchanged one
    -2.0. Each gap exceeds 1/8, far beyond any rounding. *)
Lemma swap_symmetry_counterexample :
  (∃ pA pB used pA' pB' used',
     predict_logistic_from_artifacts float_rejects_str example_teamA example_teamB
       (Some "home"%string) interaction_artifacts = Some (pA, pB, used)
     ∧ predict_logistic_from_artifacts float_rejects_str example_teamB example_teamA
         (Some "away"%string) interaction_artifacts = Some (pA', pB', used')
     ∧ used !! "home_x_offrat"%string = Some 10
     ∧ used' !! "home_x_offrat"%string = Some 10
     ∧ pA' - pB > 1 / 4)
  ∧ (∃ pA pB used pA' pB' used',
       predict_logistic_from_artifacts float_rejects_str example_teamA example_teamB
         (Some "home"%string) intercept_artifacts = Some (pA, pB, used)
       ∧ predict_logistic_from_artifacts float_rejects_str example_teamB example_teamA
           (Some "away"%string) intercept_artifacts = Some (pA', pB', used')
       ∧ pA' - pB > 1 / 4)
  ∧ (∃ pA pB used pA' pB' used',
       predict_logistic_from_artifacts float_rejects_str unit_teamA unit_teamB
         (Some "home"%string) centred_artifacts = Some (pA, pB, used)
       ∧ predict_logistic_from_artifacts float_rejects_str unit_teamB unit_teamA
           (Some "away"%string) centred_artifacts = Some (pA', pB', used')
       ∧ pB - pA' > 1 / 8).
Proof.
  assert (∀ z, 1 <= z → _sigmoid z > 5 / 8) as Hbig.
  { intros z Hz. rewrite sigmoid_closed_form.
    pose proof (exp_ineq1_le z) as He. pose proof (exp_opp_mult z) as Hm.
    pose proof (exp_pos (- z)) as Hp.
    destruct (logistic_bounds (exp (- z)) Hp) as [_ [_ Hlt]].
    assert (exp (- z) < 3 / 5) as Hs by nra.
    assert (0 < / (1 + exp (- z))) as Hy by (apply Rinv_0_lt_compat; lra).
    assert ((1 + exp (- z)) * / (1 + exp (- z)) = 1) as Hi by (apply Rinv_r; lra).
    unfold Rdiv at 1. rewrite Rmult_1_l. nra. }
  split_and!.
  - rewrite (predict_unfold float_rejects_str example_teamA example_teamB
               (Some "home"%string) interaction_artifacts
               ["home_x_offrat"%string] [1] 0 [0] [1] eq_refl).
    rewrite (predict_unfold float_rejects_str example_teamB example_teamA
               (Some "away"%string) interaction_artifacts
               ["home_x_offrat"%string] [1] 0 [0] [1] eq_refl).
    cbv zeta. do 6 eexists. split; [reflexivity|]. split; [reflexivity|].
    rewrite !build_features_vector, !build_features_named.
    split_and!.
    + transitivity (Some (1 * (110 - 100))); [reflexivity | f_equal; lra].
    + transitivity (Some (-1 * (100 - 110))); [reflexivity | f_equal; lra].
    + change ((score [-1 * (100 - 110)] [0] [1] [1] 0).1
              - (score [1 * (110 - 100)] [0] [1] [1] 0).2 > 1 / 4).
      unfold score, linear_model, standardize, py_sum. cbn.
      rewrite !decide_False by lra.
      pose proof (Hbig (0 + (0 + 1 * ((-1 * (100 - 110) - 0) / 1))) ltac:(lra)).
      pose proof (Hbig (0 + (0 + 1 * ((1 * (110 - 100) - 0) / 1))) ltac:(lra)).
      lra.
  - rewrite (predict_unfold float_rejects_str example_teamA example_teamB
               (Some "home"%string) intercept_artifacts [] [] 1 [] [] eq_refl).
    rewrite (predict_unfold float_rejects_str example_teamB example_teamA
               (Some "away"%string) intercept_artifacts [] [] 1 [] [] eq_refl).
    cbv zeta. do 6 eexists. split; [reflexivity|]. split; [reflexivity|].
    change ((score [] [] [] [] 1).1 - (score [] [] [] [] 1).2 > 1 / 4).
    unfold score, linear_model, standardize, py_sum. cbn.
    pose proof (Hbig (1 + 0) ltac:(lra)). lra.
  - rewrite (predict_unfold float_rejects_str unit_teamA unit_teamB
               (Some "home"%string) centred_artifacts
               ["OffRating_diff"%string] [1] 0 [1] [1] eq_refl).
    rewrite (predict_unfold float_rejects_str unit_teamB unit_teamA
               (Some "away"%string) centred_artifacts
               ["OffRating_diff"%string] [1] 0 [1] [1] eq_refl).
    cbv zeta. do 6 eexists. split; [reflexivity|]. split; [reflexivity|].
    rewrite !build_features_vector, !build_features_named.
    change ((score [1 - 0] [1] [1] [1] 0).2 - (score [0 - 1] [1] [1] [1] 0).1 > 1 / 8).
    unfold score, linear_model, standardize, py_sum. cbn.
    rewrite !decide_False by lra.
    replace (0 + (0 + 1 * ((1 - 0 - 1) / 1))) with 0 by lra.
    replace (0 + (0 + 1 * ((0 - 1 - 1) / 1))) with (- (2)) by lra.
    pose proof sigmoid_zero as H0.
    pose proof (sigmoid_opp 2) as H2.
    pose proof (Hbig 2 ltac:(lra)). lra.
Qed.

Lemma sigmoid_properties_witness :
  _sigmoid 2 = 1 / (1 + exp (- 2))
  ∧ _sigmoid_binary64 libm_exp_samples 40 = 1%float
  ∧ _sigmoid_binary64 libm_exp_samples (-750) = 0%float
  ∧ _sigmoid_binary64 libm_exp_samples 0 = 0.5%float.
Proof.
  split_and!.
  - apply (sigmoid_properties libm_exp_samples 2 0). lra.
  - apply (sigmoid_properties libm_exp_samples 0 40); reflexivity.
  - apply (sigmoid_properties libm_exp_samples 0 (-750)); reflexivity.
  - apply (sigmoid_properties libm_exp_samples 0 0); reflexivity.
Defined.

(** Counterexample to the stated form of C5: in binary64 the transform is
    exactly 1.0 at 40.0 and exactly 0.0 at -750.0, so it is not strictly
    between 0 and 1; and at 0.5 it differs from 1 - sigmoid(-0.5) in the
    last place. *)
Lemma sigmoid_binary64_counterexample :
  _sigmoid_binary64 libm_exp_samples 40 = 1%float
  ∧ (_sigmoid_binary64 libm_exp_samples 40 <? 1)%float = false
  ∧ _sigmoid_binary64 libm_exp_samples (-750) = 0%float
  ∧ (0 <? _sigmoid_binary64 libm_exp_samples (-750))%float = false
  ∧ _sigmoid_binary64 libm_exp_samples 0.5 = 0x1.3eb2fd4d34391p-1%float
  ∧ (1 - _sigmoid_binary64 libm_exp_samples (-0.5))%float = 0x1.3eb2fd4d34390p-1%float
  ∧ (_sigmoid_binary64 libm_exp_samples 0.5
       =? 1 - _sigmoid_binary64 libm_exp_samples (-0.5))%float = false.
Proof. vm_compute. repeat split. Qed.

Lemma zero_scale_masks_raw_value_witness :
  standardize [1; 7] [0; 3] [1; 0] !! 1%nat = Some 0
  ∧ score [1; 7] [0; 3] [1; 0] [1; 5] 0 = score [1; 2] [0; 3] [1; 0] [1; 5] 0.
Proof.
  destruct (zero_scale_masks_raw_value [1; 2] [1; 7] [0; 3] [1; 0] [1; 5] 0 1%nat)
    as (_ & Hzero & _ & Hscore).
  - reflexivity.
  - reflexivity.
  - intros [|[|j]] Hj; [reflexivity | congruence | reflexivity].
  - split; [|exact Hscore]. apply Hzero; cbn; lia.
Defined.

Lemma build_features_layout_witness :
  (build_features_from_live float_rejects_str
     {[ "AdjO"%string := PyFloat 110 ]} ∅ (Some "home"%string)
     ["OffRating_diff"; "Unknown_diff"]%string).1 !! 1%nat = Some 0
  ∧ _safe_get float_rejects_str (∅ : gmap string pyval) "AdjO" 0 = 0.
Proof.
  pose proof (build_features_layout float_rejects_str
    {[ "AdjO"%string := PyFloat 110 ]} ∅ (Some "home"%string)
    ["OffRating_diff"; "Unknown_diff"]%string) as H.
  destruct (build_features_from_live _ _ _ _ _) as [x f] eqn:E.
  destruct H as (_ & Hproj & _ & _ & HB).
  split.
  - cbn [fst]. rewrite (Hproj 1%nat "Unknown_diff"%string eq_refl).
    replace f with (build_features_from_live float_rejects_str
      {[ "AdjO"%string := PyFloat 110 ]} ∅ (Some "home"%string)
      ["OffRating_diff"; "Unknown_diff"]%string).2 by (rewrite E; reflexivity).
    rewrite build_features_named. reflexivity.
  - apply HB. reflexivity.
Defined.

(** ** Closed instances of the further properties *)

Lemma load_succeeds_iff_witness :
  ∃ meta, logistic_model_meta example_artifacts = Some meta.
Proof.
  assert (is_Some (load_logistic_artifacts float_rejects_str example_artifacts)) as Hload
    by (eexists; reflexivity).
  destruct (proj1 (load_succeeds_iff float_rejects_str example_artifacts) Hload)
    as (meta & _ & _ & _ & _ & Hmeta & _).
  exists meta. exact Hmeta.
Defined.

Lemma derived_feature_keys_witness :
  is_Some ((build_features_from_live float_rejects_str example_teamA example_teamB
              (Some "home"%string) []).2 !! "Poss_diff"%string).
Proof.
  apply (proj2 (derived_feature_keys float_rejects_str example_teamA example_teamB
                  (Some "home"%string) [] "Poss_diff"%string)).
  unfold derived_names, diff_features, interaction_features. cbn [fmap list_fmap fst app].
  in_list.
Defined.


Lemma location_reaches_three_features_witness :
  build_features_from_live float_rejects_str example_teamA example_teamB
    (Some " Home"%string) ["OffRating_diff"]%string
  = build_features_from_live float_rejects_str example_teamA example_teamB
      (Some "HOME"%string) ["OffRating_diff"]%string
  ∧ (build_features_from_live float_rejects_str example_teamA example_teamB
       (Some "away"%string) ["OffRating_diff"]%string).2 !! "Poss_diff"%string
    = (build_features_from_live float_rejects_str example_teamA example_teamB
         (Some "home"%string) ["OffRating_diff"]%string).2 !! "Poss_diff"%string.
Proof.
  split.
  - apply (location_reaches_three_features float_rejects_str example_teamA example_teamB
             (Some "HOME"%string) (Some " Home"%string)). reflexivity.
  - apply (location_reaches_three_features float_rejects_str example_teamA example_teamB
             (Some "home"%string) (Some "away"%string)).
    + discriminate.
    + unfold interaction_features. not_in_list.
Defined.

Lemma team_against_itself_witness :
  ∃ v, (build_features_from_live float_rejects_str example_teamA example_teamA
          (Some "home"%string) []).2 !! "home_x_offrat"%string = Some v
       ∧ v = 0.
Proof.
  assert (is_Some ((build_features_from_live float_rejects_str example_teamA example_teamA
                      (Some "home"%string) []).2 !! "home_x_offrat"%string)) as [v Hv].
  { rewrite build_features_named, list_to_map_is_Some, named_features_keys.
    unfold derived_names, diff_features, interaction_features.
    cbn [fmap list_fmap fst app]. in_list. }
  exists v. split; [exact Hv|].
  apply (proj1 (team_against_itself float_rejects_str example_teamA (Some "home"%string) [])
           "home_x_offrat"%string v); [discriminate | exact Hv].
Defined.

Lemma unread_keys_are_ignored_witness :
  build_features_from_live float_rejects_str
    (<["Seed"%string := PyInt 3]> example_teamA) example_teamB (Some "home"%string)
    ["OffRating_diff"]%string
  = build_features_from_live float_rejects_str example_teamA example_teamB
      (Some "home"%string) ["OffRating_diff"]%string.
Proof.
  apply (unread_keys_are_ignored float_rejects_str example_teamA example_teamB
           "Seed"%string (PyInt 3) (Some "home"%string) ["OffRating_diff"]%string
           example_artifacts).
  unfold stat_keys, diff_features. cbn [fmap list_fmap snd]. not_in_list.
Defined.

Lemma map_row_is_complete_witness :
  is_Some (_map_row float_rejects_str example_row !! "Tempo"%string)
  ∧ (∃ x, _map_row float_rejects_str example_row !! "AdjO"%string = Some (PyFloat x))
  ∧ _map_row float_rejects_str example_row !! "eFG_off"%string = Some (PyFloat 0).
Proof.
  destruct (map_row_is_complete float_rejects_str example_row "Tempo"%string)
    as (Hkeys & _ & _).
  destruct (map_row_is_complete float_rejects_str example_row "AdjO"%string)
    as (Hkeys' & Hfloat & _).
  destruct (map_row_is_complete float_rejects_str example_row "eFG_off"%string)
    as (_ & _ & Hvalue).
  split_and!.
  - apply (proj2 Hkeys). unfold row_keys. in_list.
  - destruct (proj2 Hkeys') as [v Hv]; [unfold row_keys; in_list|].
    destruct (Hfloat v Hv) as [x ->]. exists x. exact Hv.
  - destruct (Hvalue ["eFG_O"; "eFG%_O"; "eFG Off"]%string PyNone true) as (_ & _ & Hzero).
    + unfold row_columns. in_list.
    + apply Hzero. repeat (apply Forall_cons; split; [left; reflexivity|]).
      apply Forall_nil_2.
Defined.

Lemma loader_rows_feed_builder_witness :
  ∃ a b,
    _map_row float_rejects_str example_row !! "AdjD"%string = Some (PyFloat a)
    ∧ _map_row float_rejects_str masked_row !! "AdjD"%string = Some (PyFloat b)
    ∧ _safe_get float_rejects_str (_map_row float_rejects_str example_row) "AdjD" 0 = a
    ∧ _safe_get float_rejects_str (_map_row float_rejects_str masked_row) "AdjD" 0 = b.
Proof.
  destruct (loader_rows_feed_builder float_rejects_str example_row masked_row
              (Some "home"%string) []) as [_ Hfed].
  apply (Hfed "AdjD"%string). unfold row_keys. in_list.
Defined.

Lemma pick_first_usable_alias_witness :
  pick float_rejects_str example_row
    (["AdjO"%string] ++ "AdjOE"%string :: ["Adj. Off"%string]) (PyFloat 0) false
  = _coerce_float float_rejects_str (PyFloat 110)
  ∧ _map_row float_rejects_str masked_row !! "AdjO"%string = Some (PyFloat 0).
Proof.
  split.
  - apply (pick_first_usable_alias float_rejects_str example_row ["AdjO"%string]
             ["Adj. Off"%string] "AdjOE"%string (PyFloat 110) (PyFloat 0) false);
      [|reflexivity|reflexivity].
    apply Forall_cons. split; [right; reflexivity | apply Forall_nil_2].
  - apply (pick_first_usable_alias float_rejects_str masked_row [] [] "AdjO"%string
             (PyStr "n/a") (PyFloat 0) false); [apply Forall_nil_2| | |]; reflexivity.
Defined.

Lemma free_throw_falls_back_to_rate_witness :
  _map_row float_rejects_str example_row !! "FT_off"%string
  = Some (PyFloat (if decide (30 > 15 / 10) then 30 / 100 else 30)).
Proof.
  destruct (free_throw_falls_back_to_rate float_rejects_str example_row)
    as (_ & _ & _ & Hcols).
  apply (Hcols (PyFloat 30)); [|reflexivity|reflexivity].
  repeat (apply Forall_cons; split; [left; reflexivity|]). apply Forall_nil_2.
Defined.

Lemma percent_to_float_heuristic_witness :
  ∃ r r', _percent_to_float float_rejects_str (PyFloat 1) = PyFloat r
          ∧ _percent_to_float float_rejects_str (PyFloat 50) = PyFloat r' ∧ r' < r.
Proof.
  destruct (percent_to_float_heuristic float_rejects_str 1 50 EmptyString)
    as (_ & _ & Hjump & _).
  apply Hjump; lra.
Defined.


Lemma experience_bonus_symmetric_witness :
  apply_experience_bonus 1 0 (1 / 4) (3 / 4) experience_heap
  = (match (apply_experience_bonus 0 1 (3 / 4) (1 / 4) experience_heap).1 with
     | Ok (qa, qb) => Ok (qb, qa)
     | Raise e => Raise e
     end, experience_heap).
Proof. exact (experience_bonus_symmetric 0 1 (3 / 4) (1 / 4) experience_heap). Defined.

Lemma experience_bonus_errors_witness :
  apply_experience_bonus 0 2 (1 / 2) (1 / 2) experience_heap
  = (Raise TypeError, experience_heap).
Proof.
  apply (experience_bonus_errors 0 2 (1 / 2) (1 / 2) experience_heap).
  right. exists TypeError. reflexivity.
Defined.

Lemma home_court_frame_witness :
  (apply_home_court 0 1 "home" example_heap).2 !! 2%nat = example_heap !! 2%nat
  ∧ ((apply_home_court 0 1 "home" example_heap).2 !!! 0%nat : gmap string pyval)
      !! "Seed"%string
    = (example_heap !!! 0%nat : gmap string pyval) !! "Seed"%string.
Proof.
  destruct (home_court_frame 0 1 "home" example_heap) as [Hobj Hkey].
  split; [apply Hobj; lia | apply Hkey; discriminate].
Defined.

Lemma home_court_partial_failure_witness :
  apply_home_court 0 1 "Home" lonely_heap
  = (Raise KeyError,
     <[0%nat := <["AdjD"%string := PyFloat (90 * (1 - HOME_COURT_ADV))]>
                  (<["AdjO"%string := PyFloat (100 * (1 + HOME_COURT_ADV))]>
                     {[ "AdjO"%string := PyFloat 100; "AdjD"%string := PyFloat 90 ]})]>
       lonely_heap).
Proof.
  apply (proj2 (home_court_partial_failure 0 1 "Home" lonely_heap eq_refl)
           {[ "AdjO"%string := PyFloat 100; "AdjD"%string := PyFloat 90 ]}
           (PyFloat 100) (PyFloat 90));
    first [reflexivity | lia].
Defined.

Lemma home_is_away_mirrored_witness :
  apply_home_court 1 0 "away" example_heap = apply_home_court 0 1 "home" example_heap.
Proof.
  eapply (home_is_away_mirrored 0 1 "home" "away" example_heap);
    first [reflexivity | lia].
Defined.

Lemma home_then_away_does_not_restore_witness :
  ((apply_home_court 0 1 "away" (apply_home_court 0 1 "home" example_heap).2).2
     !!! 0%nat : gmap string pyval) !! "AdjO"%string
  = Some (PyFloat (100 * (1 + HOME_COURT_ADV) * (1 - HOME_COURT_ADV))).
Proof.
  eapply (home_then_away_does_not_restore 0 1 "home" "away" example_heap);
    first [reflexivity | lia].
Defined.

Lemma example_seed_order : py_gt (PyInt 12) (PyInt 5) = Ok true.
Proof. unfold py_gt. cbn. rewrite bool_decide_eq_true_2 by lra. reflexivity. Qed.

Lemma upset_adjustment_result_witness :
  ∃ new rest h',
    adjust_for_upset_trends 0 1 2 "round1" example_heap = (Ok 2%nat, h')
    ∧ (h' !!! 2%nat : gmap string pyval) !! "Drake"%string = Some new
    ∧ (h' !!! 2%nat : gmap string pyval) !! "Miami"%string = Some rest
    ∧ py_num new = Ok (Rmax (2 / 10) (35 / 100))
    ∧ py_num rest = Ok (1 - Rmax (2 / 10) (35 / 100)).
Proof.
  destruct (upset_adjustment_result 0 1 2 "round1" example_heap (PyInt 12) (PyInt 5)
              "Drake" "Miami" (35 / 100) (2 / 10)
              eq_refl eq_refl eq_refl example_seed_order eq_refl eq_refl eq_refl eq_refl
              ltac:(discriminate))
    as (new & rest & h' & Hcall & HA & HB & Hn & Hr & _).
  exists new, rest, h'. split_and!; assumption.
Defined.

Lemma upset_adjustment_idempotent_witness :
  adjust_for_upset_trends 0 1 2 "round1"
    (adjust_for_upset_trends 0 1 2 "round1" example_heap).2
  = (Ok 2%nat, (adjust_for_upset_trends 0 1 2 "round1" example_heap).2).
Proof.
  apply (upset_adjustment_idempotent 0 1 2 "round1" example_heap (PyInt 12) (PyInt 5)
           "Drake" "Miami" (35 / 100) (2 / 10)
           eq_refl eq_refl eq_refl example_seed_order eq_refl eq_refl eq_refl eq_refl);
    first [discriminate | lia].
Defined.

Lemma upset_adjustment_order_independent_witness :
  adjust_for_upset_trends 1 0 2 "round1" example_heap
  = adjust_for_upset_trends 0 1 2 "round1" example_heap.
Proof.
  exact (upset_adjustment_order_independent 0 1 2 "round1" example_heap
           (PyInt 12) (PyInt 5) "Drake" "Miami" (35 / 100) (2 / 10)
           eq_refl eq_refl eq_refl example_seed_order eq_refl eq_refl eq_refl eq_refl).
Defined.

Lemma predict_returns_derived_set_witness :
  ∃ pA pB used,
    predict_logistic_from_artifacts float_rejects_str example_teamA example_teamB
      (Some "home"%string) example_artifacts = Some (pA, pB, used)
    ∧ used = (build_features_from_live float_rejects_str example_teamA example_teamB
                (Some "home"%string) []).2.
Proof.
  assert (is_Some (load_logistic_artifacts float_rejects_str example_artifacts)) as Hload
    by (eexists; reflexivity).
  destruct (predict_is_Some float_rejects_str example_teamA example_teamB
              (Some "home"%string) example_artifacts Hload) as [[[pA pB] used] Hp].
  exists pA, pB, used. split; [exact Hp|].
  exact (proj1 (predict_returns_derived_set float_rejects_str _ _ _ _ pA pB used [] Hp)).
Defined.

Lemma zero_coefficients_give_baseline_witness :
  score [1; 10] [0; 3] [1; 2] [0; 0] 1 = (_sigmoid 1, 1 - _sigmoid 1).
Proof.
  apply (zero_coefficients_give_baseline [1; 10] [0; 3] [1; 2] [0; 0] 1).
  repeat (apply Forall_cons; split; [reflexivity|]). apply Forall_nil_2.
Defined.
